(** * Global Music Taste Explorer: the yearly backfill job and its exports

    A shallow embedding of [scripts/backfill_2021_from_kagglehub.py], of
    the column contract between that script and the two dashboards
    ([app.py], [Shiny_migration/app.py]), and of the tables the dashboards
    compute from the exports.

    The script is a straight-line pandas program.  A data frame is modelled
    as the list of its rows, a row as a finite map from column names to
    cells, and a missing value (NaN, None, NaT) as the absence of the column
    in the row.  Every pandas operation the script uses is written out as a
    function on such lists, following the script line by line.  *)

From Stdlib Require Import ZArith QArith String Ascii List Lia.
From stdpp Require Import base gmap strings list sorting pretty.

Local Open Scope Z_scope.

(* ================================================================== *)
(** * Part I: definitions *)
(* ================================================================== *)

(** ** Cells, rows and frames *)

(** The values of a cell that is not missing.  Counts, ranks, years and
    stream counts are integers (pandas holds stream counts as float64, which
    is exact on integers below 2^53); a mean is an exact rational; a date is
    kept at day resolution. *)
Inductive Cell : Type :=
  | CInt (z : Z)
  | CStr (s : string)
  | CDate (y m d : Z)
  | CFrac (q : Q).

#[global] Instance Q_eq_dec : EqDecision Q.
Proof. solve_decision. Defined.

#[global] Instance Cell_eq_dec : EqDecision Cell.
Proof. solve_decision. Defined.

Abbreviation Row := (gmap string Cell).

(** A frame read from disk: its column index and its rows. *)
Record DataFrame : Type := mkFrame {
  columns : list string;
  rows : list Row
}.

(** The three conversions of pandas that the script calls and whose
    parsers are not part of the repository: [pd.to_datetime] and
    [pd.to_numeric] with [errors="coerce"] ([None] is NaT / NaN), and
    Python's [str] on a cell that is not already a string.  A number that
    [to_numeric] reads is taken to be a finite integer, as ranks and
    stream counts are. *)
Record Pandas : Type := mkPandas {
  to_datetime : Cell → option (Z * Z * Z);
  to_numeric : Cell → option Z;
  py_str : Cell → string
}.

Definition cell_int (c : Cell) : option Z :=
  match c with CInt z => Some z | _ => None end.

Definition cell_year (c : Cell) : option Z :=
  match c with CDate y _ _ => Some y | _ => None end.

(** [Series.astype(str)] *)
Definition astype_str (pd : Pandas) (c : Cell) : string :=
  match c with CStr s => s | _ => py_str pd c end.

(** [Series.str.lower()].  Only the comparison of the result with the
    ASCII literal "top200" is used, which letters outside ASCII cannot
    influence, so the case mapping is written for ASCII. *)
Definition ascii_lower (a : ascii) : ascii :=
  let n := nat_of_ascii a in
  if ((65 <=? n) && (n <=? 90))%nat then ascii_of_nat (n + 32) else a.

Fixpoint str_lower (s : string) : string :=
  match s with
  | EmptyString => EmptyString
  | String a s' => String (ascii_lower a) (str_lower s')
  end.

(** ** Orders on cells *)

Section Lexicographic.
Context {A : Type} (cmp : A → A → comparison).

Fixpoint list_compare (l1 l2 : list A) : comparison :=
  match l1, l2 with
  | [], [] => Eq
  | [], _ :: _ => Lt
  | _ :: _, [] => Gt
  | x :: l1', y :: l2' =>
    match cmp x y with
    | Eq => list_compare l1' l2'
    | o => o
    end
  end.

(** Missing values sort after every present value
    ([na_position="last"]), whatever the direction. *)
Definition na_last (o1 o2 : option A) : comparison :=
  match o1, o2 with
  | Some a, Some b => cmp a b
  | Some _, None => Lt
  | None, Some _ => Gt
  | None, None => Eq
  end.

Definition cmp_leb (x y : A) : bool :=
  match cmp x y with Gt => false | _ => true end.
End Lexicographic.

Definition cell_tag (c : Cell) : Z :=
  match c with CInt _ => 0 | CStr _ => 1 | CDate _ _ _ => 2 | CFrac _ => 3 end.

(** Integers by value, strings by code point, dates by calendar order,
    rationals by value.  The columns the script sorts or groups on hold
    cells of one kind each; between kinds the order is by kind. *)
Definition cell_compare (c1 c2 : Cell) : comparison :=
  match c1, c2 with
  | CInt a, CInt b => a ?= b
  | CStr a, CStr b => String.compare a b
  | CDate y1 m1 d1, CDate y2 m2 d2 =>
      list_compare Z.compare [y1; m1; d1] [y2; m2; d2]
  | CFrac p, CFrac q => Qcompare p q
  | _, _ => cell_tag c1 ?= cell_tag c2
  end.

(** ** List algorithms behind the pandas operations *)

Section ListAlgorithms.
Context {A K : Type} `{EqDecision K}.

(** [keep="last"]: an element stays when no later element has its key. *)
Fixpoint dedup_last (key : A → K) (l : list A) : list A :=
  match l with
  | [] => []
  | x :: l' =>
    if decide (key x ∈ key <$> l') then dedup_last key l'
    else x :: dedup_last key l'
  end.

(** A stable sort: an element is placed before the first element of the
    sorted tail that is not smaller, so equal elements keep their order. *)
Fixpoint insert_sorted (leb : A → A → bool) (x : A) (l : list A)
  : list A :=
  match l with
  | [] => [x]
  | y :: l' => if leb x y then x :: y :: l' else y :: insert_sorted leb x l'
  end.

Definition stable_sort (leb : A → A → bool) (l : list A) : list A :=
  foldr (insert_sorted leb) [] l.

(** [GroupBy.cumcount]: the number of earlier elements of the same
    group. *)
Fixpoint cumcount_from (key : A → K) (seen : list K) (l : list A)
  : list nat :=
  match l with
  | [] => []
  | x :: l' =>
    length (filter (λ k, k = key x) seen)
      :: cumcount_from key (key x :: seen) l'
  end.

Definition cumcount_by (key : A → K) (l : list A) : list nat :=
  cumcount_from key [] l.
End ListAlgorithms.

(** ** The pandas operations of the script *)

(** Column assignment [df[c] = ...], row by row; a missing result leaves
    the cell missing. *)
Definition assign (c : string) (f : Row → option Cell) (r : Row) : Row :=
  partial_alter (λ _, f r) c r.

(** [df.dropna(subset=...)] *)
Definition dropna (subset : list string) (df : list Row) : list Row :=
  filter (λ r, Forall (λ c, is_Some (r !! c)) subset) df.

(** The values of the key columns of a row; missing values compare equal
    to each other in [drop_duplicates]. *)
Definition row_key (subset : list string) (r : Row) : list (option Cell) :=
  (λ c, r !! c) <$> subset.

(** [df.drop_duplicates(subset=..., keep="last")] *)
Definition drop_duplicates_last (subset : list string) (df : list Row)
  : list Row :=
  dedup_last (row_key subset) df.

(** The key of a row in [groupby(cols)]: with the default [dropna=True] a
    row with a missing key value is in no group. *)
Definition group_key (cols : list string) (r : Row) : option (list Cell) :=
  mapM (λ c, r !! c) cols.

(** The group keys in the order [groupby] yields them ([sort=True]). *)
Definition group_keys (cols : list string) (df : list Row)
  : list (list Cell) :=
  stable_sort (cmp_leb (list_compare cell_compare))
    (remove_dups (omap (group_key cols) df)).

Definition groupby (cols : list string) (df : list Row)
  : list (list Cell * list Row) :=
  (λ k, (k, filter (λ r, group_key cols r = Some k) df))
    <$> group_keys cols df.

(** With [as_index=False] the key values are columns of the result. *)
Definition key_row (cols : list string) (k : list Cell) : Row :=
  list_to_map (zip cols k).

Definition put (c : string) (v : option Cell) (r : Row) : Row :=
  partial_alter (λ _, v) c r.

(** The aggregations; all but [size] skip missing values. *)
Definition present (col : string) (g : list Row) : list Cell :=
  omap (λ r, r !! col) g.

Definition numbers (col : string) (g : list Row) : list Z :=
  omap (λ r, r !! col ≫= cell_int) g.

Definition sum_Z (l : list Z) : Z := foldr Z.add 0 l.

Definition agg_size (g : list Row) : option Cell :=
  Some (CInt (Z.of_nat (length g))).

Definition agg_nunique (col : string) (g : list Row) : option Cell :=
  Some (CInt (Z.of_nat (length (remove_dups (present col g))))).

Definition agg_sum (col : string) (g : list Row) : option Cell :=
  Some (CInt (sum_Z (numbers col g))).

Definition agg_mean (col : string) (g : list Row) : option Cell :=
  match numbers col g with
  | [] => None
  | ns => Some (CFrac (Qred (sum_Z ns # Pos.of_nat (length ns))))
  end.

Definition agg_min (col : string) (g : list Row) : option Cell :=
  match numbers col g with
  | [] => None
  | n :: ns => Some (CInt (foldr Z.min n ns))
  end.

(** [groupby(cols, as_index=False).agg(name=(column, function), ...)] *)
Definition agg (cols : list string)
    (aggs : list (string * (list Row → option Cell))) (df : list Row)
  : list Row :=
  (λ kg : list Cell * list Row,
     foldl (λ r a, put a.1 (a.2 kg.2) r) (key_row cols kg.1) aggs)
    <$> groupby cols df.

(** [df.sort_values(columns, ascending=...)]: the rows are compared
    column by column, each column in its direction.  On several columns
    pandas sorts stably. *)
Fixpoint row_compare (order : list (string * bool)) (r1 r2 : Row)
  : comparison :=
  match order with
  | [] => Eq
  | (c, asc) :: order' =>
      match na_last (if asc then cell_compare else flip cell_compare)
                    (r1 !! c) (r2 !! c) with
      | Eq => row_compare order' r1 r2
      | o => o
      end
  end.

Definition sort_values (order : list (string * bool)) (df : list Row)
  : list Row :=
  stable_sort (cmp_leb (row_compare order)) df.

(** [df.groupby(cols).cumcount()].  The tables the script ranks come out
    of a [groupby] on these columns and more, so every row has a key. *)
Definition cumcount (cols : list string) (df : list Row) : list nat :=
  cumcount_by (group_key cols) df.

(** ** The script *)

Section Script.
Context (pd : Pandas).

(** Line 27: the date column, parsed. *)
Definition parse_date (r : Row) : option Cell :=
  r !! "date"
    ≫= λ c, (λ d : Z * Z * Z, CDate d.1.1 d.1.2 d.2) <$> to_datetime pd c.

(** Line 31: the filter on the year and on the chart. *)
Definition is_2021_top200 (r : Row) : Prop :=
  (r !! "date" ≫= cell_year) = Some 2021
  ∧ (str_lower ∘ astype_str pd <$> r !! "chart") = Some "top200"%string.

#[global] Instance is_2021_top200_dec r : Decision (is_2021_top200 r).
Proof. unfold is_2021_top200. apply _. Defined.

(** Lines 27-43: the cleaned rows of 2021's Top 200 chart.  Line 37,
    [astype(int)], leaves a rank that is an integer as it is. *)
Definition df_2021 (df : list Row) : list Row :=
  let df := assign "date" parse_date <$> df in
  let df := dropna ["date"; "region"; "chart"; "rank"]%string df in
  let df := filter is_2021_top200 df in
  let df := assign "rank"
              (λ r, CInt <$> (r !! "rank" ≫= to_numeric pd)) <$> df in
  let df := assign "streams"
              (λ r, CInt <$> (r !! "streams" ≫= to_numeric pd)) <$> df in
  let df := dropna ["rank"]%string df in
  let df := assign "region"
              (λ r, CStr ∘ astype_str pd <$> r !! "region") <$> df in
  assign "year" (λ _, Some (CInt 2021)) <$> df.
End Script.

(** The columns of [df_2021]: those of the input, with [streams] and
    [year] assigned. *)
Definition df_2021_columns (cols : list string) : list string :=
  remove_dups (cols ++ ["streams"; "year"]%string).

(** Lines 51-60. *)
Definition cys_2021 (df : list Row) : list Row :=
  agg ["region"; "year"]%string
    [ ("chart_rows", agg_size);
      ("unique_tracks", agg_nunique "url");
      ("unique_artists", agg_nunique "artist");
      ("total_streams", agg_sum "streams");
      ("avg_streams", agg_mean "streams") ]%string
    df.

(** Line 65. *)
Definition track_key (cols : list string) : string :=
  if decide ("url"%string ∈ cols) then "url"%string else "title"%string.

(** Lines 75-77 and 90-92: rank within (region, year) by descending
    streams and keep the first [limit]. *)
Definition with_rank_year (df : list Row) : list Row :=
  zip_with (λ r n, <["rank_year"%string := CInt (Z.of_nat n + 1)]> r)
    df (cumcount ["region"; "year"]%string df).

Definition cell_le_int (limit : Z) (v : option Cell) : Prop :=
  match v with
  | Some (CInt z) => z ≤ limit
  | _ => False
  end.

#[global] Instance cell_le_int_dec limit v : Decision (cell_le_int limit v).
Proof. destruct v as [[]|]; simpl; apply _. Defined.

Definition rank_year_le (limit : Z) (r : Row) : Prop :=
  cell_le_int limit (r !! "rank_year").

Definition by_streams : list (string * bool) :=
  [("region", true); ("year", true); ("streams", false)]%string.

Definition ranked (df : list Row) : list Row :=
  with_rank_year (sort_values by_streams df).

(** The [rank_year] column of a table, and the rows of one (region, year). *)
Definition rank_years (df : list Row) : list (option Cell) :=
  (λ r, r !! "rank_year") <$> df.

Definition region_year (gk : list Cell) (df : list Row) : list Row :=
  filter (λ r, group_key ["region"; "year"]%string r = Some gk) df.

Definition top_n (limit : Z) (df : list Row) : list Row :=
  filter (rank_year_le limit) (ranked df).

(** Lines 66-77. *)
Definition tt_grouped (tk : string) (df : list Row) : list Row :=
  agg ["region"; "year"; tk; "title"; "artist"]%string
    [ ("streams", agg_sum "streams");
      ("best_rank", agg_min "rank");
      ("days_on_chart", agg_nunique "date") ]%string
    df.

Definition tt_2021 (tk : string) (df : list Row) : list Row :=
  top_n 500 (tt_grouped tk df).

(** Lines 80-92. *)
Definition ay_grouped (tk : string) (df : list Row) : list Row :=
  agg ["region"; "year"; "artist"]%string
    [ ("streams", agg_sum "streams");
      ("track_count", agg_nunique tk);
      ("days_on_chart", agg_nunique "date");
      ("best_rank", agg_min "rank") ]%string
    df.

Definition ay_2021 (tk : string) (df : list Row) : list Row :=
  top_n 200 (ay_grouped tk df).

(** Lines 98-107.  [existing] is the content of the file at
    [existing_path], [None] when the file does not exist; the result is
    the table written back to that path.  [pd.concat] aligns the columns
    of the two tables and fills the gaps with NaN, which on rows as finite
    maps is the concatenation of the lists. *)
Definition append_dedupe (existing : option (list Row)) (new_df : list Row)
    (subset_keys : list string) : list Row :=
  match existing with
  | Some old => drop_duplicates_last subset_keys (old ++ new_df)
  | None => new_df
  end.

(** The three parquet files under [exports/]. *)
Record Exports : Type := mkExports {
  country_year_summary : option (list Row);
  top_tracks_country_year_top500 : option (list Row);
  artist_country_year_top200 : option (list Row)
}.

Definition has_columns (need have : list string) : Prop :=
  Forall (λ c, c ∈ have) need.

(** The whole script, lines 22-125.  Selecting, grouping on or
    aggregating a column that the frame does not have raises [KeyError],
    which ends the run ([None]) before anything is written. *)
Definition backfill (pd : Pandas) (raw : DataFrame) (fs : Exports)
  : option Exports :=
  guard (has_columns ["date"; "region"; "chart"; "rank"]%string (columns raw));;
  let cols := df_2021_columns (columns raw) in
  let df := df_2021 pd (rows raw) in
  guard (has_columns ["url"; "artist"]%string cols);;
  let cys := cys_2021 df in
  let tk := track_key cols in
  guard (has_columns [tk; "title"]%string cols);;
  let tt := tt_2021 tk df in
  let ay := ay_2021 tk df in
  Some {|
    country_year_summary :=
      Some (append_dedupe (country_year_summary fs) cys
              ["region"; "year"]%string);
    top_tracks_country_year_top500 :=
      Some (append_dedupe (top_tracks_country_year_top500 fs) tt
              ["region"; "year"; tk]%string);
    artist_country_year_top200 :=
      Some (append_dedupe (artist_country_year_top200 fs) ay
              ["region"; "year"; "artist"]%string)
  |}.

(** ** The columns of the exports *)

(** The columns the script writes, read off lines 51-92. *)
Definition cys_columns : list string :=
  ["region"; "year"; "chart_rows"; "unique_tracks"; "unique_artists";
   "total_streams"; "avg_streams"]%string.

Definition tt_columns (tk : string) : list string :=
  ["region"; "year"; tk; "title"; "artist"; "streams"; "best_rank";
   "days_on_chart"; "rank_year"]%string.

Definition ay_columns : list string :=
  ["region"; "year"; "artist"; "streams"; "track_count"; "days_on_chart";
   "best_rank"; "rank_year"]%string.

(** The columns the dashboards select from the three tables.  [app.py]:
    World View (lines 82-173), Explorer (185-277), Trends (289-315).
    [Shiny_migration/app.py]: lines 188-292, 194-346 and 201-387. *)
Definition streamlit_cys_reads : list string :=
  ["year"; "iso3"; "country"; "total_streams"; "unique_artists";
   "unique_tracks"; "avg_rank"]%string.

Definition streamlit_tt_reads : list string :=
  ["country"; "year"; "streams_sum"; "track_name"; "artist_name";
   "best_rank"; "days_charted"]%string.

Definition streamlit_ay_reads : list string :=
  ["artist_name"; "streams_sum"; "country"; "year"]%string.

Definition shiny_cys_reads : list string :=
  ["year"; "iso3"; "country"; "total_streams"; "unique_artists";
   "unique_tracks"; "avg_rank"]%string.

Definition shiny_tt_reads : list string :=
  ["country"; "year"; "streams_sum"; "track_name"; "artist_name";
   "best_rank"; "days_charted"]%string.

Definition shiny_ay_reads : list string :=
  ["artist_name"; "streams_sum"; "country"; "year"]%string.

(** ** The cleaning pass, row by row

    What lines 27-43 do to one row of the input: the checks that decide
    whether the row is kept, and the row it becomes. *)

Section Cleaning.
Context (pd : Pandas).

Definition parsed_year (r : Row) : option Z :=
  (λ d : Z * Z * Z, d.1.1) <$> (r !! "date" ≫= to_datetime pd).

Definition retained (r : Row) : Prop :=
  parsed_year r = Some 2021
  ∧ is_Some (r !! "region")
  ∧ (str_lower ∘ astype_str pd <$> r !! "chart") = Some "top200"%string
  ∧ is_Some (r !! "rank" ≫= to_numeric pd).

#[global] Instance retained_dec r : Decision (retained r).
Proof. unfold retained. apply _. Defined.

Definition clean (r : Row) : Row :=
  let r := assign "date" (parse_date pd) r in
  let r := assign "rank"
           (λ r, CInt <$> (r !! "rank" ≫= to_numeric pd)) r in
  let r := assign "streams"
           (λ r, CInt <$> (r !! "streams" ≫= to_numeric pd)) r in
  let r := assign "region"
           (λ r, CStr ∘ astype_str pd <$> r !! "region") r in
  assign "year" (λ _, Some (CInt 2021)) r.
End Cleaning.

(** ** The track identifier as the specification words it

    "the url value when available, falling back to the title when the url
    is unavailable", read row by row, and the number of distinct such
    identifiers in a group. *)
Definition track_identifier_spec (r : Row) : option Cell :=
  match r !! "url" with
  | Some u => Some u
  | None => r !! "title"
  end.

Definition unique_tracks_spec (g : list Row) : Z :=
  Z.of_nat (length (remove_dups (omap track_identifier_spec g))).

(** ** Vocabulary of the properties *)

(** [a] occurs before [b] in [l]. *)
Definition precedes {A : Type} (l : list A) (a b : A) : Prop :=
  ∃ i j, (i < j)%nat ∧ l !! i = Some a ∧ l !! j = Some b.

(** A three-way comparison that orders its type totally, up to the
    elements it declares equal. *)
Record CmpOrder {A : Type} (cmp : A → A → comparison) : Prop := {
  cmp_sym x y : cmp y x = CompOpp (cmp x y);
  cmp_lt_trans x y z : cmp x y = Lt → cmp y z = Lt → cmp x z = Lt;
  cmp_eq_l x y z : cmp x y = Eq → cmp x z = cmp y z
}.

(** ** Concrete inputs

    A stand-in for the conversions of pandas on the inputs used below:
    ISO dates [YYYY-MM-DD] and unsigned decimal integers. *)

Definition digit (a : ascii) : option Z :=
  let n := Z.of_nat (nat_of_ascii a) in
  if decide (48 ≤ n ≤ 57) then Some (n - 48) else None.

Fixpoint digits_from (acc : Z) (s : string) : option Z :=
  match s with
  | EmptyString => Some acc
  | String a s' => digit a ≫= λ d, digits_from (10 * acc + d) s'
  end.

Definition decimal (s : string) : option Z :=
  match s with EmptyString => None | _ => digits_from 0 s end.

Definition iso_date (s : string) : option (Z * Z * Z) :=
  y ← decimal (substring 0 4 s);
  m ← decimal (substring 5 2 s);
  d ← decimal (substring 8 2 s);
  if decide (String.length s = 10%nat
             ∧ String.get 4 s = Some "-"%char ∧ String.get 7 s = Some "-"%char
             ∧ 1 ≤ m ≤ 12 ∧ 1 ≤ d ≤ 31)
  then Some (y, m, d) else None.

Definition iso_pandas : Pandas := {|
    to_datetime c :=
      match c with
      | CStr s => iso_date s
      | CDate y m d => Some (y, m, d)
      | _ => None
      end;
    to_numeric c :=
      match c with
      | CInt z => Some z
      | CStr s => decimal s
      | _ => None
      end;
    py_str c :=
      match c with
      | CStr s => s
      | CInt z => pretty z
      | _ => EmptyString
      end
  |}.

Definition row_of (l : list (string * option Cell)) : Row :=
  list_to_map (omap (λ p, pair p.1 <$> p.2) l).

(** A row of [charts.csv]. *)
Definition chart_row (title : option string) (rank : option Cell)
    (date : option string) (artist url region chart : option string)
    (streams : option Cell) : Row :=
  row_of [ ("title", CStr <$> title); ("rank", rank);
           ("date", CStr <$> date); ("artist", CStr <$> artist);
           ("url", CStr <$> url); ("region", CStr <$> region);
           ("chart", CStr <$> chart); ("streams", streams) ]%string.

Definition charts_columns : list string :=
  ["title"; "rank"; "date"; "artist"; "url"; "region"; "chart"; "trend";
   "streams"]%string.

(** A row of [country_year_summary] as in the example of the merge. *)
Definition summary_row (region : string) (year total : Z) : Row :=
  row_of [ ("region", Some (CStr region)); ("year", Some (CInt year));
           ("total_streams", Some (CInt total)) ]%string.

Definition merge_existing : list Row := [summary_row "US" 2020 500].

Definition merge_new : list Row :=
  [summary_row "US" 2020 600; summary_row "FR" 2020 20].

(** One track whose title changed during the year: two chart rows with the
    same url and two titles. *)
Definition retitled_charts : list Row :=
  [ chart_row (Some "Song") (Some (CInt 1)) (Some "2021-03-01") (Some "Ann")
      (Some "https://open.spotify.com/track/1") (Some "US") (Some "top200")
      (Some (CInt 900));
    chart_row (Some "Song - Remastered") (Some (CInt 2)) (Some "2021-09-01")
      (Some "Ann") (Some "https://open.spotify.com/track/1") (Some "US")
      (Some "top200") (Some (CInt 400)) ]%string.

Definition retitled_tt : list Row :=
  tt_2021 (track_key charts_columns) (df_2021 iso_pandas retitled_charts).

Definition tt_keys : list string :=
  ["region"; "year"; track_key charts_columns]%string.





(** Charts of three regions; the rows of JP carry no stream counts. *)
Definition summary_charts : list Row :=
  [ chart_row (Some "One") (Some (CInt 1)) (Some "2021-01-01") (Some "Ann")
      (Some "https://open.spotify.com/track/1") (Some "US") (Some "top200")
      (Some (CInt 100));
    chart_row (Some "Two") (Some (CInt 2)) (Some "2021-01-01") (Some "Bob")
      (Some "https://open.spotify.com/track/2") (Some "US") (Some "top200")
      (Some (CInt 50));
    chart_row (Some "One") (Some (CInt 1)) (Some "2021-01-01") (Some "Ann")
      (Some "https://open.spotify.com/track/1") (Some "CA") (Some "top200")
      (Some (CInt 10));
    chart_row (Some "One") (Some (CInt 1)) (Some "2021-01-01") (Some "Ann")
      (Some "https://open.spotify.com/track/1") (Some "JP") (Some "top200")
      None ]%string.


(** [n] tracks of one region, track [i] with [1000 + i] streams, and what
    the truncation example of the specification says of the top tracks
    of 501 of them: 500 rows, ranked 1 to 500, the streams from 1501 down
    to 1002, the track with 1001 streams left out. *)
Definition tracks (n : nat) : list Row :=
  (λ i : nat,
     chart_row (Some ("Track " +:+ pretty i)) (Some (CInt 1))
       (Some "2021-01-01") (Some "Ann") (Some ("t/" +:+ pretty i))
       (Some "Global") (Some "top200")
       (Some (CInt (1000 + Z.of_nat i))))%string <$> seq 1 n.

Definition keeps_top_500_of_501 (out : list Row) : Prop :=
  length out = 500%nat
  ∧ rank_years out = (λ i, Some (CInt (Z.of_nat i))) <$> seq 1 500
  ∧ (λ o : Row, o !! "streams"%string) <$> out
    = (λ i, Some (CInt (1000 + Z.of_nat i))) <$> reverse (seq 2 500).

#[global] Instance keeps_top_500_of_501_dec out :
  Decision (keeps_top_500_of_501 out).
Proof. unfold keeps_top_500_of_501. apply _. Defined.

(** Two tracks, and two artists, with equal yearly streams in one region. *)
Definition tied_charts : list Row :=
  [ chart_row (Some "Alpha") (Some (CInt 2)) (Some "2021-02-01") (Some "Ann")
      (Some "t/1") (Some "US") (Some "top200") (Some (CInt 100));
    chart_row (Some "Beta") (Some (CInt 3)) (Some "2021-02-01") (Some "Bob")
      (Some "t/2") (Some "US") (Some "top200") (Some (CInt 60));
    chart_row (Some "Beta") (Some (CInt 4)) (Some "2021-02-02") (Some "Bob")
      (Some "t/2") (Some "US") (Some "top200") (Some (CInt 40));
    chart_row (Some "Gamma") (Some (CInt 1)) (Some "2021-02-01") (Some "Cy")
      (Some "t/3") (Some "US") (Some "top200") (Some (CInt 300)) ]%string.

Definition track_entry (url title artist : string)
    (streams best_rank days : Z) : Row :=
  row_of [ ("region", Some (CStr "US")); ("year", Some (CInt 2021));
           ("url", Some (CStr url)); ("title", Some (CStr title));
           ("artist", Some (CStr artist)); ("streams", Some (CInt streams));
           ("best_rank", Some (CInt best_rank));
           ("days_on_chart", Some (CInt days)) ]%string.

Definition artist_entry (artist : string)
    (streams tracks days best_rank : Z) : Row :=
  row_of [ ("region", Some (CStr "US")); ("year", Some (CInt 2021));
           ("artist", Some (CStr artist)); ("streams", Some (CInt streams));
           ("track_count", Some (CInt tracks));
           ("days_on_chart", Some (CInt days));
           ("best_rank", Some (CInt best_rank)) ]%string.

(** Two chart rows of one region; the second has a title and no url. *)
Definition no_url_row : Row :=
  chart_row (Some "Beta") (Some (CInt 2)) (Some "2021-04-01") (Some "Bob")
    None (Some "US") (Some "top200") (Some (CInt 70)).

Definition no_url_charts : list Row :=
  [ chart_row (Some "Alpha") (Some (CInt 1)) (Some "2021-04-01") (Some "Ann")
      (Some "t/1") (Some "US") (Some "top200") (Some (CInt 90));
    no_url_row ]%string.

Definition no_exports : Exports := mkExports None None None.

(** Rows of [country_year_summary] in the columns the dashboards read. *)
Definition dashboard_row (country iso3 : string) (year total : Z) : Row :=
  row_of [ ("country", Some (CStr country)); ("iso3", Some (CStr iso3));
           ("year", Some (CInt year));
           ("total_streams", Some (CInt total)) ]%string.

Definition dashboard_summary : list Row :=
  [ dashboard_row "United States" "USA" 2020 500;
    dashboard_row "France" "FRA" 2020 20;
    dashboard_row "Japan" "JPN" 2020 90 ].

(** ** Proof automation

    Lookups in a row built by a chain of [put], and disjointness of two
    lists of column names. *)
Ltac lookup_puts :=
  unfold put;
  repeat first [ rewrite lookup_partial_alter, decide_True by done
               | rewrite lookup_partial_alter, decide_False by done ].

Ltac disjoint_columns :=
  let c := fresh "c" in
  let Hc := fresh "Hc" in
  intros c Hc; revert c Hc; apply Forall_forall; compute_done.

(** ** Where the exports are written and read

    A resolved absolute path is the list of its components below the root
    of the file system; the root itself is the empty list. *)
Abbreviation Path := (list string).

(** [p.parents[i]]; an index past the root raises [IndexError]. *)
Definition path_parents (p : Path) (i : nat) : option Path :=
  if decide (i < length p)%nat then Some (take (length p - S i) p) else None.

(** [p.name]: the last component, empty for the root. *)
Definition path_name (p : Path) : string := default EmptyString (last p).

(** [p.parent]: the root is its own parent. *)
Definition path_parent (p : Path) : Path := removelast p.

(** [p / c] *)
Definition path_join (p : Path) (c : string) : Path := p ++ [c].

(** Lines 6-12 of the script, from the resolved path of the script
    file. *)
Definition REPO_ROOT (file : Path) : option Path :=
  root ← path_parents file 1;
  Some (if decide (path_name root = "Shiny_migration"%string)
        then path_parent root else root).

Definition EXPORTS (file : Path) : option Path :=
  root ← REPO_ROOT file; Some (path_join root "exports").

(** Lines 16-17 of [Shiny_migration/app.py], from the resolved path of
    the application file. *)
Definition shiny_HERE (file : Path) : Path := path_parent file.

Definition shiny_EXPORTS (file : Path) : Path :=
  path_join (shiny_HERE file) "exports".

(** ** The dashboards

    The data functions of [Shiny_migration/app.py] and the lines of
    [app.py] that compute the same tables: what is shown, from the three
    tables and the inputs of the user, up to the rendering.  A function
    yields [None] when the code raises (a column that is not there, a
    value that is not a number). *)

(** [series == y] for an integer [y]: a float that is a whole number is
    equal to that number; a missing value is equal to nothing. *)
Definition cell_eq_int (y : Z) (v : option Cell) : Prop :=
  match v with
  | Some (CInt z) => z = y
  | Some (CFrac q) => Qeq_bool q (inject_Z y) = true
  | _ => False
  end.

#[global] Instance cell_eq_int_dec y v : Decision (cell_eq_int y v).
Proof. destruct v as [[]|]; simpl; apply _. Defined.

(** [series.isin(values)]: a missing value is in no list. *)
Definition cell_isin (values : list Cell) (v : option Cell) : Prop :=
  match v with Some c => c ∈ values | None => False end.

#[global] Instance cell_isin_dec values v : Decision (cell_isin values v).
Proof. destruct v; simpl; apply _. Defined.

(** [df.head(n)]: the first [n] rows, all but the last [-n] when [n] is
    negative. *)
Definition head_rows {A : Type} (n : Z) (l : list A) : list A :=
  if decide (0 ≤ n) then take (Z.to_nat n) l
  else take (length l - Z.to_nat (- n)) l.

(** [df[cols]], row by row. *)
Definition select (cols : list string) (r : Row) : Row :=
  filter (λ kv : string * Cell, kv.1 ∈ cols) r.

(** [sorted(df[col].dropna().unique())] *)
Definition sorted_unique (col : string) (df : list Row) : list Cell :=
  stable_sort (cmp_leb cell_compare) (remove_dups (present col df)).

(** [min(l)] and [max(l)] of Python: the first of the smallest, the first
    of the largest; [ValueError] on an empty list. *)
Definition py_min (l : list Cell) : option Cell :=
  match l with
  | [] => None
  | x :: l' =>
      Some (foldl (λ m y, if decide (cell_compare y m = Lt) then y else m)
              x l')
  end.

Definition py_max (l : list Cell) : option Cell :=
  match l with
  | [] => None
  | x :: l' =>
      Some (foldl (λ m y, if decide (cell_compare y m = Gt) then y else m)
              x l')
  end.

(** [int(x)] of a number: a float is truncated towards zero. *)
Definition py_int (c : Cell) : option Z :=
  match c with
  | CInt z => Some z
  | CFrac q => Some (Z.quot (Qnum q) (Z.pos (Qden q)))
  | _ => None
  end.

(** [series.clip(lower=lo)] on a number. *)
Definition clip_lower (lo : Z) (c : Cell) : option Cell :=
  match c with
  | CInt z => Some (CInt (Z.max lo z))
  | CFrac q => Some (CFrac (if Qle_bool (inject_Z lo) q then q
                            else inject_Z lo))
  | _ => None
  end.

(** What pandas guarantees of [sort_values] on one column: the rows are
    those of the input, in the order of the column, the missing values
    last.  The default algorithm is not stable, so the code does not fix
    the order of rows with equal values. *)
Record SortValues (sort_by : string → bool → list Row → list Row)
  : Prop := {
  sort_by_Permutation c asc df : sort_by c asc df ≡ₚ df;
  sort_by_Sorted c asc df :
    StronglySorted (λ a b, row_compare [(c, asc)] a b ≠ Gt)
      (sort_by c asc df)
}.

(** The order of a descending sort on column [c]: [b] has no more of it
    than [a], a missing value counting as the least. *)
Definition not_above (c : string) (a b : Row) : Prop :=
  match a !! c, b !! c with
  | _, None => True
  | None, Some _ => False
  | Some x, Some y => cell_compare y x ≠ Gt
  end.

Section Dashboards.
(** [df.sort_values(column, ascending=...)], [np.log10] and
    [series.astype(str).str.slice(0, n)] on a cell that may be missing. *)
Context (sort_by : string → bool → list Row → list Row).
Context (log10 : Cell → Cell).
Context (str_slice : nat → option Cell → string).

(** *** World View *)

(** The rows of the map: [app.py] lines 82-86, [wv_df_map] lines
    212-213. *)
Definition on_map (year : Z) (r : Row) : Prop :=
  cell_eq_int year (r !! "year")
  ∧ is_Some (r !! "iso3")
  ∧ r !! "country" ≠ Some (CStr "Global").

#[global] Instance on_map_dec year r : Decision (on_map year r).
Proof. unfold on_map. apply _. Defined.

Definition df_map (country_year_summary : DataFrame) (selected_year : Z)
  : option (list Row) :=
  guard (has_columns ["year"; "iso3"; "country"]%string
           (columns country_year_summary));;
  Some (filter (on_map selected_year) (rows country_year_summary)).

(** [wv_df_map], lines 209-217. *)
Definition color_val (wv_log : bool) (r : Row) : option Row :=
  match r !! "total_streams" with
  | None => Some (delete "color_val"%string r)
  | Some c =>
      v ← clip_lower 1 c;
      Some (<["color_val"%string := if wv_log then log10 v else v]> r)
  end.

Definition wv_df_map (cys : DataFrame) (wv_year : Z) (wv_log : bool)
  : option (list Row) :=
  df ← df_map cys wv_year;
  guard ("total_streams"%string ∈ columns cys);;
  mapM (color_val wv_log) df.

(** [wv_top_table], lines 263-270. *)
Definition wv_top_table (cys : DataFrame) (wv_year : Z) (wv_log : bool)
    (wv_topn : Z) : option (list Row) :=
  df ← wv_df_map cys wv_year wv_log;
  let top_c := head_rows wv_topn (sort_by "total_streams" false df) in
  let cols := ["country"; "total_streams"; "unique_artists";
               "unique_tracks"]%string in
  guard (has_columns cols (columns cys));;
  Some (select cols <$> top_c).

(** The slider of the year: [app.py] lines 24-26 (a table without years
    raises [ValueError]) and [_init_choices] lines 188-190 (the slider is
    left as it is).  The result is the minimum, the maximum and the
    value. *)
Definition ALL_YEARS (country_year_summary : DataFrame)
  : option (list Cell) :=
  guard ("year"%string ∈ columns country_year_summary);;
  Some (sorted_unique "year" (rows country_year_summary)).

Definition year_slider (country_year_summary : DataFrame)
  : option (Z * Z * Z) :=
  years ← ALL_YEARS country_year_summary;
  MIN_YEAR ← py_min years ≫= py_int;
  MAX_YEAR ← py_max years ≫= py_int;
  Some (MIN_YEAR, MAX_YEAR, MAX_YEAR).

Definition wv_year_slider (cys : DataFrame)
  : option (option (Cell * Cell * Cell)) :=
  years ← ALL_YEARS cys;
  Some (lo ← py_min years; hi ← py_max years; Some (lo, hi, hi)).

(** *** Explorer *)






(** *** Trends *)





End Dashboards.

(** ** Concrete tables of the dashboards *)

Definition world_row (country iso3 : option string) (year total : Z) : Row :=
  row_of [ ("country", CStr <$> country); ("iso3", CStr <$> iso3);
           ("year", Some (CInt year)); ("total_streams", Some (CInt total));
           ("unique_artists", Some (CInt 3));
           ("unique_tracks", Some (CInt 5)) ]%string.

Definition world_summary : DataFrame := {|
  columns := ["country"; "iso3"; "year"; "total_streams"; "unique_artists";
              "unique_tracks"]%string;
  rows := [ world_row (Some "Global") None 2020 900;
            world_row (Some "France") (Some "FRA") 2020 0;
            world_row (Some "Japan") (Some "JPN") 2020 90;
            world_row (Some "United States") (Some "USA") 2020 500;
            world_row (Some "Japan") (Some "JPN") 2019 70;
            world_row None (Some "XKX") 2020 7 ]
|}.





(** The stable sort as the one-column sort, and stand-ins for the
    logarithm and the label. *)
Definition stable_sort_by (c : string) (asc : bool) (df : list Row)
  : list Row :=
  sort_values [(c, asc)] df.



Definition top_countries_2020 : list Row :=
  default []
    (wv_top_table stable_sort_by (λ c, c) world_summary 2020 false 2).




(* ================================================================== *)
(** * Part II: properties *)
(* ================================================================== *)

(** ** Deduplication keeping the last occurrence *)

Section DedupFacts.
Context {A K : Type} `{EqDecision K} (key : A → K).

Lemma dedup_last_app (l1 l2 : list A) :
  dedup_last key (l1 ++ l2) =
  filter (λ x, key x ∉ key <$> l2) (dedup_last key l1) ++ dedup_last key l2.
Proof.
  induction l1 as [|a l1 IH]; simpl; [done|].
  rewrite fmap_app. destruct (decide (key a ∈ key <$> l1)) as [Hin|Hin].
  - rewrite decide_True by (apply elem_of_app; auto). exact IH.
  - rewrite filter_cons. destruct (decide (key a ∈ key <$> l2)) as [Hin2|Hin2].
    + rewrite decide_True by (apply elem_of_app; auto).
      rewrite decide_False by tauto. exact IH.
    + rewrite decide_False by (rewrite elem_of_app; tauto).
      rewrite decide_True by done. simpl. by rewrite IH.
Qed.

Lemma dedup_last_sublist (l : list A) : dedup_last key l `sublist_of` l.
Proof.
  induction l as [|a l IH]; simpl; [done|].
  case_decide; by constructor.
Qed.

Lemma elem_of_dedup_last_1 (l : list A) x : x ∈ dedup_last key l → x ∈ l.
Proof. intros Hx. eapply elem_of_sublist; [done|apply dedup_last_sublist]. Qed.

Lemma dedup_last_keys (l : list A) k :
  k ∈ key <$> dedup_last key l ↔ k ∈ key <$> l.
Proof.
  induction l as [|a l IH]; simpl; [done|].
  case_decide as Hin; rewrite ?fmap_cons, ?elem_of_cons, IH; [|done].
  split; [auto|]. intros [->|?]; auto.
Qed.

Lemma dedup_last_NoDup (l : list A) : NoDup (key <$> dedup_last key l).
Proof.
  induction l as [|a l IH]; simpl; [constructor|].
  case_decide as Hin; [done|]. rewrite fmap_cons. constructor; [|done].
  by rewrite dedup_last_keys.
Qed.

Lemma dedup_last_id (l : list A) : NoDup (key <$> l) → dedup_last key l = l.
Proof.
  induction l as [|a l IH]; simpl; [done|].
  rewrite NoDup_cons. intros [Hnin Hnd].
  rewrite decide_False by done. by rewrite IH.
Qed.

Lemma dedup_last_idemp (l : list A) :
  dedup_last key (dedup_last key l) = dedup_last key l.
Proof. apply dedup_last_id, dedup_last_NoDup. Qed.

Lemma elem_of_dedup_last (l : list A) x :
  x ∈ dedup_last key l ↔ ∃ l1 l2, l = l1 ++ x :: l2 ∧ key x ∉ key <$> l2.
Proof.
  induction l as [|a l IH]; simpl.
  - split; [by intros ?%elem_of_nil|]. by intros ([|??] & ? & ? & _).
  - split.
    + intros Hx.
      assert (x ∈ dedup_last key l →
        ∃ l1 l2, a :: l = l1 ++ x :: l2 ∧ key x ∉ key <$> l2) as Htl.
      { intros (l1 & l2 & -> & Hn)%IH. by exists (a :: l1), l2. }
      case_decide as Hin; [by apply Htl|].
      apply elem_of_cons in Hx as [->|Hx]; [|by apply Htl].
      by exists [], l.
    + intros ([|b l1] & l2 & Heq & Hn); simplify_eq/=.
      * rewrite decide_False by done. left.
      * assert (x ∈ dedup_last key (l1 ++ x :: l2)) by (apply IH; eauto).
        case_decide; [done|by right].
Qed.

Lemma filter_dedup_last_disjoint (l1 l2 : list A) :
  (∀ x, x ∈ l1 → key x ∈ key <$> l2) →
  filter (λ x, key x ∉ key <$> l2) l1 = [].
Proof.
  intros Hall. induction l1 as [|a l1 IH]; [done|].
  rewrite filter_cons, decide_False; [|intros Hn; apply Hn, Hall; left].
  apply IH. intros x Hx. apply Hall. by right.
Qed.

(** Merging the same batch a second time changes nothing. *)
Lemma dedup_last_again (old new : list A) :
  dedup_last key (dedup_last key (old ++ new) ++ new) =
  dedup_last key (old ++ new).
Proof.
  rewrite (dedup_last_app (dedup_last key _) new), dedup_last_idemp.
  rewrite (dedup_last_app old new) at 1. rewrite filter_app.
  rewrite list_filter_filter.
  rewrite (filter_dedup_last_disjoint (dedup_last key new)).
  - rewrite app_nil_r. rewrite dedup_last_app. f_equal.
    apply list_filter_iff. tauto.
  - intros x Hx%elem_of_dedup_last_1. apply list_elem_of_fmap. eauto.
Qed.

Lemma dedup_last_twice (new : list A) :
  dedup_last key (new ++ new) = dedup_last key new.
Proof.
  rewrite dedup_last_app, filter_dedup_last_disjoint; [done|].
  intros x Hx%elem_of_dedup_last_1. apply list_elem_of_fmap. eauto.
Qed.
End DedupFacts.

(** ** The merge into the persisted tables *)

Section Merge.
Implicit Types (old new : list Row) (keys : list string) (r : Row).

Lemma append_dedupe_split old new keys :
  append_dedupe (Some old) new keys =
  filter (λ r, row_key keys r ∉ row_key keys <$> new)
         (drop_duplicates_last keys old)
    ++ drop_duplicates_last keys new.
Proof. apply dedup_last_app. Qed.

Lemma drop_duplicates_last_fixed keys new :
  drop_duplicates_last keys new = new ↔ NoDup (row_key keys <$> new).
Proof.
  split; [|apply dedup_last_id].
  intros <-. apply dedup_last_NoDup.
Qed.
End Merge.

(** The example merge of the specification: the old US row is overwritten,
    not duplicated. *)
Example append_dedupe_us_fr :
  append_dedupe (Some merge_existing) merge_new ["region"; "year"]%string
  = [summary_row "US" 2020 600; summary_row "FR" 2020 20].
Proof. compute_done. Qed.

(** C1, as stated, fails: a row of [new] is lost when a later row of [new]
    has its key.  The top-tracks table of a year in which a track changed
    its title has two rows with the key (region, year, url); merged into
    the file a first run wrote, only the second of them is left. *)
Lemma append_dedupe_drops_new_row :
  ∃ r, r ∈ retitled_tt
       ∧ r ∉ append_dedupe (Some retitled_tt) retitled_tt tt_keys.
Proof.
  exists (default ∅ (retitled_tt !! 0%nat)). split; compute_done.
Qed.

(** C1 (amended): without an existing table the result is [new] unchanged;
    otherwise it is [existing ++ new] deduplicated on the keys keeping the
    last occurrence, that is: the rows of [existing] that are the last of
    [existing] with their key and whose key does not occur in [new],
    followed by the rows of [new] that are the last of [new] with their
    key.  A row of the result whose key occurs in [new] is a row of [new];
    when no two rows of [new] share a key every row of [new] is in the
    result, and when that also holds of [existing] the rows kept from
    [existing] are exactly those whose key does not occur in [new]. *)
Theorem append_dedupe_last_wins (new : list Row) (keys : list string) :
  append_dedupe None new keys = new
  ∧ ∀ old : list Row,
      let merged := append_dedupe (Some old) new keys in
      merged = drop_duplicates_last keys (old ++ new)
      ∧ merged =
          filter (λ r, row_key keys r ∉ row_key keys <$> new)
                 (drop_duplicates_last keys old)
            ++ drop_duplicates_last keys new
      ∧ (∀ (l : list Row) (r : Row),
           r ∈ drop_duplicates_last keys l ↔
           ∃ l1 l2, l = l1 ++ r :: l2 ∧ row_key keys r ∉ row_key keys <$> l2)
      ∧ (∀ r : Row,
           r ∈ merged → row_key keys r ∈ row_key keys <$> new → r ∈ new)
      ∧ (NoDup (row_key keys <$> new) → ∀ r : Row, r ∈ new → r ∈ merged)
      ∧ (NoDup (row_key keys <$> old) → NoDup (row_key keys <$> new) →
         merged =
           filter (λ r, row_key keys r ∉ row_key keys <$> new) old ++ new).
Proof.
  split; [done|]. intros old merged.
  assert (merged =
    filter (λ r, row_key keys r ∉ row_key keys <$> new)
    (drop_duplicates_last keys old)
    ++ drop_duplicates_last keys new) as Hsplit
    by apply append_dedupe_split.
  split_and!; try done.
  - intros l r. apply elem_of_dedup_last.
  - intros r. rewrite Hsplit, elem_of_app, list_elem_of_filter.
    intros [[Hn _]|Hr] Hk; [done|]. by eapply elem_of_dedup_last_1.
  - intros Hnd r Hr. rewrite Hsplit, elem_of_app. right.
    unfold drop_duplicates_last. by rewrite dedup_last_id.
  - intros Hold Hnew. rewrite Hsplit. unfold drop_duplicates_last.
    by rewrite !dedup_last_id.
Qed.

Lemma append_dedupe_last_wins_witness :
  NoDup (row_key ["region"; "year"]%string <$> merge_existing)
  ∧ NoDup (row_key ["region"; "year"]%string <$> merge_new)
  ∧ append_dedupe (Some merge_existing) merge_new ["region"; "year"]%string
    = filter (λ r, row_key ["region"; "year"]%string r
                     ∉ row_key ["region"; "year"]%string <$> merge_new)
             merge_existing ++ merge_new.
Proof.
  assert (NoDup (row_key ["region"; "year"]%string <$> merge_existing)) as H1
    by compute_done.
  assert (NoDup (row_key ["region"; "year"]%string <$> merge_new)) as H2
    by compute_done.
  split_and!; [done..|].
  destruct (append_dedupe_last_wins merge_new ["region"; "year"]%string)
    as [_ Hm].
  destruct (Hm merge_existing) as (_ & _ & _ & _ & _ & Hall).
  exact (Hall H1 H2).
Defined.

(** C2, as stated, fails on a first write: the file is created from [new]
    as it is, and the second run then deduplicates it. *)
Lemma append_dedupe_rerun_first_write :
  append_dedupe (Some (append_dedupe None retitled_tt tt_keys))
    retitled_tt tt_keys
  ≠ append_dedupe None retitled_tt tt_keys.
Proof. compute_done. Qed.

(** C2 (amended): merging the same [new] again into the result of a merge
    into an existing table changes nothing.  After a first write (no
    existing table) a second merge of the same [new] yields [new]
    deduplicated, which is the first result exactly when no two rows of
    [new] agree on the keys. *)
Theorem append_dedupe_rerun (new : list Row) (keys : list string) :
  (∀ old : list Row,
     append_dedupe (Some (append_dedupe (Some old) new keys)) new keys
     = append_dedupe (Some old) new keys)
  ∧ append_dedupe (Some (append_dedupe None new keys)) new keys
    = drop_duplicates_last keys new
  ∧ (append_dedupe (Some (append_dedupe None new keys)) new keys
     = append_dedupe None new keys
     ↔ NoDup (row_key keys <$> new)).
Proof.
  split_and!.
  - intros old. apply dedup_last_again.
  - apply dedup_last_twice.
  - simpl. unfold drop_duplicates_last. rewrite dedup_last_twice.
    apply drop_duplicates_last_fixed.
Qed.

(** C3, as stated, fails when no existing table is present: the two rows
    of the track that changed its title are both written. *)
Lemma append_dedupe_first_write_keeps_duplicates :
  ∃ i j r1 r2,
    i ≠ j
    ∧ append_dedupe None retitled_tt tt_keys !! i = Some r1
    ∧ append_dedupe None retitled_tt tt_keys !! j = Some r2
    ∧ row_key tt_keys r1 = row_key tt_keys r2.
Proof.
  exists 0%nat, 1%nat, (default ∅ (retitled_tt !! 0%nat)),
    (default ∅ (retitled_tt !! 1%nat)).
  split; [done|]. compute_done.
Qed.

(** C3 (amended): merged into an existing table, the result has no two
    rows that agree on all key columns.  Without an existing table the
    result is [new] itself, whose keys are unique exactly when those of
    [new] are. *)
Theorem append_dedupe_keys_unique (new : list Row) (keys : list string) :
  (∀ old : list Row,
     NoDup (row_key keys <$> append_dedupe (Some old) new keys))
  ∧ (NoDup (row_key keys <$> append_dedupe None new keys)
     ↔ NoDup (row_key keys <$> new)).
Proof.
  split; [|done]. intros old. apply dedup_last_NoDup.
Qed.

(** ** The cleaning pass *)

Lemma filter_fmap {A B : Type} (f : A → B) (P : B → Prop)
    `{!∀ y, Decision (P y)} (l : list A) :
  filter P (f <$> l) = f <$> filter (λ x, P (f x)) l.
Proof.
  induction l as [|x l IH]; [done|].
  rewrite fmap_cons, !filter_cons. case_decide; by rewrite ?fmap_cons, IH.
Qed.

Lemma lookup_assign c f (r : Row) c' :
  assign c f r !! c' = if decide (c = c') then f r else r !! c'.
Proof. unfold assign. apply lookup_partial_alter. Qed.

Lemma lookup_put c v (r : Row) c' :
  put c v r !! c' = if decide (c = c') then v else r !! c'.
Proof. unfold put. apply lookup_partial_alter. Qed.

Section CleaningFacts.
Context (pd : Pandas).

(** The checks of lines 28-36, read on the row as it was in the input. *)
Lemma retained_checks (r : Row) :
  retained pd r ↔
  let r1 := assign "date" (parse_date pd) r in
  let r2 := assign "streams"
              (λ r, CInt <$> (r !! "streams" ≫= to_numeric pd))
              (assign "rank"
                 (λ r, CInt <$> (r !! "rank" ≫= to_numeric pd)) r1) in
  Forall (λ c, is_Some (r1 !! c)) ["date"; "region"; "chart"; "rank"]%string
  ∧ is_2021_top200 pd r1
  ∧ Forall (λ c, is_Some (r2 !! c)) ["rank"]%string.
Proof.
  cbv zeta. rewrite !Forall_cons, !Forall_nil.
  unfold is_2021_top200, retained.
  rewrite !lookup_assign. simpl. unfold parse_date, parsed_year.
  destruct (r !! "date"%string) as [c|]; simpl;
    [destruct (to_datetime pd c) as [[[y m] d]|]; simpl|..];
    destruct (r !! "rank"%string) as [k|]; simpl;
    try destruct (to_numeric pd k); simpl;
    destruct (r !! "chart"%string) as [ch|]; simpl;
    rewrite ?is_Some_alt; intuition congruence.
Qed.

Lemma df_2021_rows (df : list Row) :
  df_2021 pd df = clean pd <$> filter (retained pd) df.
Proof.
  unfold df_2021, dropna. cbv zeta.
  repeat first [ rewrite filter_fmap | rewrite list_filter_filter
    | rewrite <- list_fmap_compose ].
  f_equal. apply list_filter_iff. intros r. rewrite retained_checks.
  simpl. tauto.
Qed.
End CleaningFacts.



(** ** The stable sort *)

Section SortFacts.
Context {A : Type} (leb : A → A → bool).
Implicit Types (l : list A) (x a b : A).

Lemma insert_sorted_Permutation x l : insert_sorted leb x l ≡ₚ x :: l.
Proof.
  induction l as [|y l IH]; simpl; [done|].
  destruct (leb x y); [done|]. rewrite IH. apply Permutation_swap.
Qed.

Lemma stable_sort_Permutation l : stable_sort leb l ≡ₚ l.
Proof.
  induction l as [|x l IH]; simpl; [done|].
  by rewrite insert_sorted_Permutation, IH.
Qed.

Lemma elem_of_stable_sort l x : x ∈ stable_sort leb l ↔ x ∈ l.
Proof. by rewrite stable_sort_Permutation. Qed.

Lemma stable_sort_NoDup l : NoDup l → NoDup (stable_sort leb l).
Proof. by rewrite stable_sort_Permutation. Qed.

Lemma precedes_cons x l a b :
  precedes (x :: l) a b ↔ (x = a ∧ b ∈ l) ∨ precedes l a b.
Proof.
  split.
  - intros (i & j & Hij & Hi & Hj). destruct j as [|j]; [lia|].
    destruct i as [|i]; simplify_eq/=.
    + left. split; [done|]. by eapply list_elem_of_lookup_2.
    + right. exists i, j. split_and!; [lia|done..].
  - intros [[-> Hb]|(i & j & Hij & Hi & Hj)].
    + apply list_elem_of_lookup in Hb as [j Hj].
      exists 0%nat, (S j). split_and!; [lia|done..].
    + exists (S i), (S j). split_and!; [lia|done..].
Qed.

Lemma precedes_filter (P : A → Prop) `{!∀ x, Decision (P x)} l a b :
  precedes l a b → P a → P b → precedes (filter P l) a b.
Proof.
  induction l as [|z l IH]; [by intros (?&?&?&?&?)|].
  intros [[-> Hb]|Hp]%precedes_cons Ha Hb'; rewrite filter_cons.
  - rewrite decide_True by done. apply precedes_cons. left.
    split; [done|]. by apply list_elem_of_filter.
  - case_decide; [apply precedes_cons; right|]; by apply IH.
Qed.

Lemma insert_sorted_precedes x l a b :
  precedes l a b → precedes (insert_sorted leb x l) a b.
Proof.
  induction l as [|y l IH]; simpl; [by intros (?&?&?&?&?)|].
  intros Hp. destruct (leb x y).
  - apply precedes_cons. by right.
  - apply precedes_cons in Hp as [[-> Hb]|Hp]; apply precedes_cons.
    + left. split; [done|]. rewrite insert_sorted_Permutation. by right.
    + right. by apply IH.
Qed.

Lemma insert_sorted_first x l b :
  b ∈ l → leb x b = true → precedes (insert_sorted leb x l) x b.
Proof.
  induction l as [|y l IH]; simpl; [by intros ?%elem_of_nil|].
  intros Hb Hle. destruct (leb x y) eqn:Hxy.
  - apply precedes_cons. by left.
  - apply elem_of_cons in Hb as [->|Hb]; [congruence|].
    apply precedes_cons. right. by apply IH.
Qed.

(** Stability: the sort never moves an element behind one that it
    preceded and is not greater than. *)
Lemma stable_sort_stable l a b :
  precedes l a b → leb a b = true → precedes (stable_sort leb l) a b.
Proof.
  induction l as [|x l IH]; simpl; [by intros (?&?&?&?&?)|].
  intros [[-> Hb]|Hp]%precedes_cons Hle.
  - apply insert_sorted_first; [|done]. by apply elem_of_stable_sort.
  - by apply insert_sorted_precedes, IH.
Qed.

Section Sorted.
Context (leb_total : ∀ x y, leb x y = false → leb y x = true).
Context (leb_trans : ∀ x y z, leb x y = true → leb y z = true → leb x z = true).

Lemma insert_sorted_Sorted x l :
  StronglySorted (λ a b, leb a b = true) l →
  StronglySorted (λ a b, leb a b = true) (insert_sorted leb x l).
Proof.
  induction 1 as [|y l Hs IH Hall]; simpl; [by repeat constructor|].
  destruct (leb x y) eqn:Hxy.
  - constructor; [by constructor|]. constructor; [done|].
    eapply Forall_impl; [done|]. intros z Hz. by eapply leb_trans.
  - constructor; [done|].
    rewrite insert_sorted_Permutation. constructor; [|done].
    by apply leb_total.
Qed.

Lemma stable_sort_Sorted l :
  StronglySorted (λ a b, leb a b = true) (stable_sort leb l).
Proof.
  induction l as [|x l IH]; simpl; [constructor|].
  by apply insert_sorted_Sorted.
Qed.

End Sorted.
End SortFacts.

(** ** The orders the script sorts by *)

Section CmpOrderFacts.
Context {A : Type} (cmp : A → A → comparison) (Hcmp : CmpOrder cmp).

Lemma cmp_refl x : cmp x x = Eq.
Proof. pose proof (cmp_sym cmp Hcmp x x). by destruct (cmp x x). Qed.

Lemma cmp_eq_r x y z : cmp x y = Eq → cmp z x = cmp z y.
Proof.
  intros Hxy. rewrite (cmp_sym cmp Hcmp x z), (cmp_sym cmp Hcmp y z).
  f_equal. by apply cmp_eq_l.
Qed.

Lemma cmp_eq_sym x y : cmp x y = Eq → cmp y x = Eq.
Proof. intros Hxy. by rewrite (cmp_sym cmp Hcmp), Hxy. Qed.

Lemma cmp_leb_total x y : cmp_leb cmp x y = false → cmp_leb cmp y x = true.
Proof.
  unfold cmp_leb. rewrite (cmp_sym cmp Hcmp x y). by destruct (cmp x y).
Qed.

Lemma cmp_leb_trans x y z :
  cmp_leb cmp x y = true → cmp_leb cmp y z = true → cmp_leb cmp x z = true.
Proof.
  unfold cmp_leb. destruct (cmp x y) eqn:Hxy; [| |done].
  - by rewrite (cmp_eq_l cmp Hcmp x y z Hxy).
  - destruct (cmp y z) eqn:Hyz; [| |done].
    + by rewrite <-(cmp_eq_r y z x Hyz), Hxy.
    + by rewrite (cmp_lt_trans cmp Hcmp x y z Hxy Hyz).
Qed.

Lemma CmpOrder_flip : CmpOrder (flip cmp).
Proof.
  split; unfold flip.
  - intros x y. apply (cmp_sym cmp Hcmp).
  - intros x y z Hxy Hyz. by apply (cmp_lt_trans cmp Hcmp z y x).
  - intros x y z Hxy. apply cmp_eq_r. by apply cmp_eq_sym.
Qed.

Lemma CmpOrder_na_last : CmpOrder (na_last cmp).
Proof.
  split.
  - intros [x|] [y|]; simpl; try done. apply (cmp_sym cmp Hcmp).
  - intros [x|] [y|] [z|]; simpl; try done. apply (cmp_lt_trans cmp Hcmp).
  - intros [x|] [y|] [z|]; simpl; try done. apply (cmp_eq_l cmp Hcmp).
Qed.

Lemma CmpOrder_pullback {B : Type} (f : B → A) :
  CmpOrder (λ x y, cmp (f x) (f y)).
Proof.
  split.
  - intros x y. apply (cmp_sym cmp Hcmp).
  - intros x y z. apply (cmp_lt_trans cmp Hcmp).
  - intros x y z. apply (cmp_eq_l cmp Hcmp).
Qed.

Lemma CmpOrder_lex (cmp2 : A → A → comparison) :
  CmpOrder cmp2 →
  CmpOrder (λ x y, match cmp x y with Eq => cmp2 x y | o => o end).
Proof.
  intros H2. split.
  - intros x y. rewrite (cmp_sym cmp Hcmp x y).
    destruct (cmp x y); simpl; [apply (cmp_sym cmp2 H2)|done..].
  - intros x y z. destruct (cmp x y) eqn:Hxy; [| |done].
    + rewrite (cmp_eq_l cmp Hcmp x y z Hxy).
      destruct (cmp y z); [apply (cmp_lt_trans cmp2 H2)|done..].
    + intros _. destruct (cmp y z) eqn:Hyz; [| |done].
      * by rewrite <-(cmp_eq_r y z x Hyz), Hxy.
      * by rewrite (cmp_lt_trans cmp Hcmp x y z Hxy Hyz).
  - intros x y z. destruct (cmp x y) eqn:Hxy; [|done..].
    intros Hxy2. rewrite (cmp_eq_l cmp Hcmp x y z Hxy).
    destruct (cmp y z); [by apply (cmp_eq_l cmp2 H2)|done..].
Qed.

Lemma CmpOrder_list : CmpOrder (list_compare cmp).
Proof.
  split.
  - intros l1. induction l1 as [|x l1 IH]; intros [|y l2]; simpl; try done.
    rewrite (cmp_sym cmp Hcmp x y). destruct (cmp x y); simpl; auto.
  - intros l1. induction l1 as [|x l1 IH]; intros [|y l2] [|z l3]; simpl;
      try done.
    destruct (cmp x y) eqn:Hxy; [| |done].
    + rewrite (cmp_eq_l cmp Hcmp x y z Hxy).
      destruct (cmp y z); [apply IH|done..].
    + intros _. destruct (cmp y z) eqn:Hyz; [| |done].
      * by rewrite <-(cmp_eq_r y z x Hyz), Hxy.
      * by rewrite (cmp_lt_trans cmp Hcmp x y z Hxy Hyz).
  - intros l1. induction l1 as [|x l1 IH]; intros [|y l2] [|z l3]; simpl;
      try done.
    destruct (cmp x y) eqn:Hxy; [|done..].
    intros Hl. rewrite (cmp_eq_l cmp Hcmp x y z Hxy).
    destruct (cmp y z); [by apply IH|done..].
Qed.
End CmpOrderFacts.

Lemma CmpOrder_const {A : Type} : CmpOrder (λ _ _ : A, Eq).
Proof. by split. Qed.

Lemma CmpOrder_Z : CmpOrder Z.compare.
Proof.
  split.
  - intros x y. apply Z.compare_antisym.
  - intros x y z. rewrite !Z.compare_lt_iff. lia.
  - intros x y z Hxy%Z.compare_eq. by subst.
Qed.

Lemma CmpOrder_Q : CmpOrder Qcompare.
Proof.
  split.
  - intros x y. symmetry. apply Qcompare_antisym.
  - intros x y z. rewrite <-!Qlt_alt. apply Qlt_trans.
  - intros x y z Hxy%Qeq_alt. by apply Qcompare_comp.
Qed.

Lemma ascii_compare_lt_trans (a b c : ascii) :
  Ascii.compare a b = Lt → Ascii.compare b c = Lt → Ascii.compare a c = Lt.
Proof. unfold Ascii.compare. rewrite !N.compare_lt_iff. lia. Qed.

Lemma CmpOrder_string : CmpOrder String.compare.
Proof.
  split.
  - intros x y. apply String.compare_antisym.
  - intros s1. induction s1 as [|a s1 IH]; intros [|b s2] [|c s3]; simpl;
      try done.
    destruct (Ascii.compare a b) eqn:Hab; [| |done].
    + apply Ascii.compare_eq_iff in Hab as ->.
      destruct (Ascii.compare b c); [apply IH|done..].
    + intros _. destruct (Ascii.compare b c) eqn:Hbc; [| |done].
      * apply Ascii.compare_eq_iff in Hbc as <-. by rewrite Hab.
      * by rewrite (ascii_compare_lt_trans a b c).
  - intros x y z Hxy%String.compare_eq_iff. by subst.
Qed.

Lemma CmpOrder_cell : CmpOrder cell_compare.
Proof.
  pose proof (CmpOrder_list Z.compare CmpOrder_Z) as Hd.
  split.
  - intros [] []; simpl; try done.
    + apply (cmp_sym _ CmpOrder_Z).
    + apply (cmp_sym _ CmpOrder_string).
    + apply (cmp_sym _ Hd [_; _; _] [_; _; _]).
    + apply (cmp_sym _ CmpOrder_Q).
  - intros [] [] []; simpl; try done.
    + apply (cmp_lt_trans _ CmpOrder_Z).
    + apply (cmp_lt_trans _ CmpOrder_string).
    + apply (cmp_lt_trans _ Hd [_; _; _] [_; _; _] [_; _; _]).
    + apply (cmp_lt_trans _ CmpOrder_Q).
  - intros [] [] []; simpl; try done.
    + apply (cmp_eq_l _ CmpOrder_Z).
    + apply (cmp_eq_l _ CmpOrder_string).
    + apply (cmp_eq_l _ Hd [_; _; _] [_; _; _] [_; _; _]).
    + apply (cmp_eq_l _ CmpOrder_Q).
Qed.

Lemma CmpOrder_row order : CmpOrder (row_compare order).
Proof.
  induction order as [|[c asc] order IH]; simpl; [apply CmpOrder_const|].
  apply (CmpOrder_lex
    (λ r1 r2 : Row,
    na_last (if asc then cell_compare else flip cell_compare)
    (r1 !! c) (r2 !! c))); [|done].
  apply (CmpOrder_pullback (na_last _)), CmpOrder_na_last.
  destruct asc; [apply CmpOrder_cell|apply CmpOrder_flip, CmpOrder_cell].
Qed.

(** ** Counting within groups *)

Section CumcountFacts.
Context {A K : Type} `{EqDecision K} (key : A → K).
Implicit Types (l : list A) (seen : list K).

Lemma cumcount_from_length seen l :
  length (cumcount_from key seen l) = length l.
Proof. revert seen. induction l; intros seen; simpl; auto. Qed.

Lemma cumcount_from_lookup seen l i x :
  l !! i = Some x →
  cumcount_from key seen l !! i =
  Some (length (filter (λ k, k = key x) seen)
        + length (filter (λ y, key y = key x) (take i l)))%nat.
Proof.
  revert seen i. induction l as [|a l IH]; intros seen i Hi; [done|].
  destruct i as [|i]; simplify_eq/=.
  - f_equal. lia.
  - rewrite (IH _ _ Hi), !filter_cons.
    destruct (decide (key a = key x)); simpl; f_equal; lia.
Qed.

Lemma cumcount_by_length l : length (cumcount_by key l) = length l.
Proof. apply cumcount_from_length. Qed.

Lemma cumcount_by_lookup l i x :
  l !! i = Some x →
  cumcount_by key l !! i =
  Some (length (filter (λ y, key y = key x) (take i l))).
Proof.
  intros Hi. unfold cumcount_by.
  by rewrite (cumcount_from_lookup _ _ _ _ Hi).
Qed.

(** Within a group the counts are [0, 1, 2, ...] in the order of the
    list. *)
Lemma cumcount_from_group seen l g :
  (filter (λ p, key p.1 = g) (zip l (cumcount_from key seen l))).*2 =
  seq (length (filter (λ k, k = g) seen))
      (length (filter (λ x, key x = g) l)).
Proof.
  revert seen. induction l as [|a l IH]; intros seen; simpl; [done|].
  rewrite !filter_cons. simpl. destruct (decide (key a = g)) as [Ha|Ha].
  - simpl. rewrite IH, filter_cons, decide_True by done. by rewrite Ha.
  - rewrite IH, filter_cons, decide_False by done. done.
Qed.

Lemma cumcount_by_group l g :
  (filter (λ p, key p.1 = g) (zip l (cumcount_by key l))).*2 =
  seq 0 (length (filter (λ x, key x = g) l)).
Proof. apply (cumcount_from_group []). Qed.

(** Within a group, a later position has a greater count. *)
Lemma cumcount_by_lt l i j a b ci cj :
  (i < j)%nat → l !! i = Some a → l !! j = Some b → key a = key b →
  cumcount_by key l !! i = Some ci → cumcount_by key l !! j = Some cj →
  (ci < cj)%nat.
Proof.
  intros Hij Ha Hb Hk. rewrite (cumcount_by_lookup _ _ _ Ha),
    (cumcount_by_lookup _ _ _ Hb). intros [= <-] [= <-].
  rewrite <-(take_drop (S i) (take j l)), take_take, Nat.min_l by lia.
  rewrite (take_S_r _ _ _ Ha), !filter_app, !length_app, Hk.
  rewrite filter_cons, decide_True by done. simpl. lia.
Qed.

End CumcountFacts.

(** ** Grouping and aggregating *)

Section GroupFacts.
Implicit Types (cols : list string) (df g : list Row) (r o : Row)
  (k : list Cell) (c : string).

Lemma group_key_Some cols r k :
  group_key cols r = Some k ↔ Forall2 (λ c v, r !! c = Some v) cols k.
Proof. unfold group_key. by rewrite mapM_Some. Qed.

Lemma group_key_present cols r k c :
  group_key cols r = Some k → c ∈ cols → is_Some (r !! c).
Proof.
  rewrite group_key_Some. induction 1 as [|c' v cols' k' Hc _ IH];
    intros Hin; [by apply elem_of_nil in Hin|].
  apply elem_of_cons in Hin as [->|Hin]; eauto.
Qed.

(** The key columns of a result row repeat those of the rows of its
    group. *)
Lemma key_row_lookup cols r k c :
  group_key cols r = Some k → c ∈ cols → key_row cols k !! c = r !! c.
Proof.
  rewrite group_key_Some. unfold key_row.
  induction 1 as [|c' v cols' k' Hc _ IH];
    intros Hin; [by apply elem_of_nil in Hin|]. simpl.
  destruct (decide (c' = c)) as [->|Hne].
  - by rewrite lookup_insert_eq.
  - rewrite lookup_insert_ne by done.
    apply elem_of_cons in Hin as [->|Hin]; [done|]. by apply IH.
Qed.

Lemma key_row_lookup_None cols k c : c ∉ cols → key_row cols k !! c = None.
Proof.
  unfold key_row. intros Hn. apply not_elem_of_list_to_map_1.
  intros (p & -> & Hp)%list_elem_of_fmap. destruct p as [c' v].
  by apply elem_of_zip_l in Hp.
Qed.

Lemma group_key_key_row cols r k :
  group_key cols r = Some k → group_key cols (key_row cols k) = Some k.
Proof.
  intros Hk. pose proof Hk as HF. rewrite group_key_Some in HF |- *.
  rewrite Forall2_same_length_lookup in HF |- *.
  destruct HF as [Hlen HF]. split; [done|]. intros i c v Hc Hv.
  rewrite (key_row_lookup cols r k c Hk); [by eapply HF|].
  by eapply list_elem_of_lookup_2.
Qed.

Lemma elem_of_group_keys cols df k :
  k ∈ group_keys cols df ↔ ∃ r, r ∈ df ∧ group_key cols r = Some k.
Proof.
  unfold group_keys.
  by rewrite elem_of_stable_sort, elem_of_remove_dups, list_elem_of_omap.
Qed.

Lemma group_keys_NoDup cols df : NoDup (group_keys cols df).
Proof. apply stable_sort_NoDup, NoDup_remove_dups. Qed.

Lemma elem_of_agg cols aggs df o :
  o ∈ agg cols aggs df ↔
  ∃ r0 k, r0 ∈ df ∧ group_key cols r0 = Some k
  ∧ o = foldl (λ r a, put a.1
                (a.2 (filter (λ r, group_key cols r = Some k) df)) r)
              (key_row cols k) aggs.
Proof.
  unfold agg, groupby. rewrite <-list_fmap_compose, list_elem_of_fmap.
  setoid_rewrite elem_of_group_keys. simpl. split.
  - intros (k & -> & r0 & Hr0 & Hk). by exists r0, k.
  - intros (r0 & k & Hr0 & Hk & ->). exists k. split; [done|]. by exists r0.
Qed.



End GroupFacts.

(** ** Ranking within (region, year) *)

Section RankFacts.
Implicit Types (df : list Row) (r o a b : Row) (gk : list Cell).

Local Abbreviation gcols := (["region"; "year"]%string).

Lemma group_key_ext cols r r' :
  (∀ c, c ∈ cols → r !! c = r' !! c) →
  group_key cols r = group_key cols r'.
Proof.
  intros Heq. apply option_eq. intros k. rewrite !group_key_Some.
  rewrite !Forall2_same_length_lookup. split.
  - intros [Hlen Hk]. split; [done|]. intros i c v Hc Hv.
    rewrite <-Heq by (by eapply list_elem_of_lookup_2). by eapply Hk.
  - intros [Hlen Hk]. split; [done|]. intros i c v Hc Hv.
    rewrite Heq by (by eapply list_elem_of_lookup_2). by eapply Hk.
Qed.

Lemma group_key_rank_year r v :
  group_key gcols (<["rank_year"%string := v]> r) = group_key gcols r.
Proof.
  apply group_key_ext. intros c Hc. apply lookup_insert_ne.
  intros <-. by repeat (apply elem_of_cons in Hc as [?|Hc]; [done|]);
    apply elem_of_nil in Hc.
Qed.

Lemma with_rank_year_zip df :
  with_rank_year df =
  (λ p : Row * nat, <["rank_year"%string := CInt (Z.of_nat p.2 + 1)]> p.1)
    <$> zip df (cumcount gcols df).
Proof.
  unfold with_rank_year. rewrite zip_with_zip.
  apply list_fmap_ext. by intros _ [r n] _.
Qed.

Lemma with_rank_year_lookup df i o :
  with_rank_year df !! i = Some o ↔
  ∃ r n, df !! i = Some r ∧ cumcount gcols df !! i = Some n
       ∧ o = <["rank_year"%string := CInt (Z.of_nat n + 1)]> r.
Proof.
  unfold with_rank_year. rewrite lookup_zip_with_Some.
  split; intros (r & n & ?); exists r, n; tauto.
Qed.

(** The ranks of a (region, year) are 1, 2, ..., in the order of the
    table. *)
Lemma with_rank_year_group df gk :
  rank_years (region_year gk (with_rank_year df)) =
  (λ i, Some (CInt (Z.of_nat i))) <$> seq 1 (length (region_year gk df)).
Proof.
  unfold rank_years, region_year.
  rewrite with_rank_year_zip, filter_fmap, <-list_fmap_compose.
  rewrite (list_filter_iff _ (λ p : Row * nat, group_key gcols p.1 = Some gk))
    by (intros p; by rewrite group_key_rank_year).
  trans ((λ n, Some (CInt (Z.of_nat n + 1))) <$>
    (filter (λ p : Row * nat, group_key gcols p.1 = Some gk)
    (zip df (cumcount gcols df))).*2).
  { rewrite <-list_fmap_compose. apply list_fmap_ext.
    intros _ p _. simpl. by rewrite lookup_insert_eq. }
  unfold cumcount. rewrite (cumcount_by_group (group_key gcols) df (Some gk)).
  rewrite <-fmap_S_seq, <-list_fmap_compose. apply list_fmap_ext.
  intros _ n _. simpl. do 2 f_equal. lia.
Qed.

Lemma filter_seq_lt (start n lim : nat) :
  filter (λ i, (i < lim)%nat) (seq start n) =
  seq start (n `min` (lim - start)).
Proof.
  revert start. induction n as [|n IH]; intros start; [done|].
  simpl. rewrite filter_cons, IH. case_decide.
  - replace (lim - start)%nat with (S (lim - S start)) by lia. done.
  - replace (lim - start)%nat with 0%nat by lia.
    replace (lim - S start)%nat with 0%nat by lia.
    by rewrite Nat.min_0_r.
Qed.

Lemma region_year_Permutation gk df1 df2 :
  df1 ≡ₚ df2 → length (region_year gk df1) = length (region_year gk df2).
Proof. intros Hp. unfold region_year. by rewrite Hp. Qed.

Lemma sort_values_Permutation order df : sort_values order df ≡ₚ df.
Proof. apply stable_sort_Permutation. Qed.

(** The ranks left in a (region, year) after the cut are 1, 2, ..., up
    to the limit. *)
Lemma top_n_group limit df gk :
  0 ≤ limit →
  rank_years (region_year gk (top_n limit df)) =
  (λ i, Some (CInt (Z.of_nat i)))
    <$> seq 1 (length (region_year gk df) `min` Z.to_nat limit).
Proof.
  intros Hlimit. unfold top_n.
  assert (∀ l : list Row,
    region_year gk (filter (rank_year_le limit) l)
    = filter (rank_year_le limit) (region_year gk l)) as ->.
  { intros l. unfold region_year. rewrite !list_filter_filter.
    apply list_filter_iff. tauto. }
  unfold rank_years at 1. unfold rank_year_le.
  rewrite <-(filter_fmap (λ r : Row, r !! "rank_year"%string)
    (cell_le_int limit)).
  fold (rank_years (region_year gk (ranked df))). unfold ranked.
  rewrite with_rank_year_group.
  rewrite (region_year_Permutation gk _ df (sort_values_Permutation _ df)).
  rewrite filter_fmap. f_equal.
  rewrite (list_filter_iff _ (λ i, (i < S (Z.to_nat limit))%nat))
    by (intros i; simpl; lia).
  rewrite filter_seq_lt. f_equal. lia.
Qed.

Lemma group_key_region_year r gk :
  group_key gcols r = Some gk ↔
  ∃ x y, gk = [x; y] ∧ r !! "region" = Some x ∧ r !! "year" = Some y.
Proof.
  unfold group_key. csimpl.
  destruct (r !! "region"%string) as [x|], (r !! "year"%string) as [y|];
    csimpl; split; try (by intros (?&?&?&?&?)); try done.
  - intros [= <-]. by exists x, y.
  - by intros (?&?&->&[= <-]&[= <-]).
Qed.

Lemma ranked_lookup df i o :
  ranked df !! i = Some o ↔
  ∃ r n, sort_values by_streams df !! i = Some r
       ∧ cumcount gcols (sort_values by_streams df) !! i = Some n
       ∧ o = <["rank_year"%string := CInt (Z.of_nat n + 1)]> r.
Proof. apply with_rank_year_lookup. Qed.

Lemma row_compare_by_streams a b gk :
  group_key gcols a = Some gk → group_key gcols b = Some gk →
  row_compare by_streams a b =
  na_last (flip cell_compare) (a !! "streams") (b !! "streams").
Proof.
  intros (x & y & -> & Hax & Hay)%group_key_region_year
    (x' & y' & [= <- <-] & Hbx & Hby)%group_key_region_year.
  simpl. rewrite Hax, Hay, Hbx, Hby. simpl.
  rewrite !(cmp_refl _ CmpOrder_cell).
  by destruct (na_last _ _ _).
Qed.

(** Equal streams within a (region, year): the order before the sort
    decides the ranks. *)
Lemma ranked_stable df a b gk :
  precedes df a b →
  group_key gcols a = Some gk → group_key gcols b = Some gk →
  a !! "streams" = b !! "streams" →
  ∃ za zb,
  precedes (ranked df) (<["rank_year"%string := CInt za]> a)
                       (<["rank_year"%string := CInt zb]> b)
  ∧ za < zb.
Proof.
  intros Hp Hga Hgb Hs.
  assert (cmp_leb (row_compare by_streams) a b = true) as Hle.
  { unfold cmp_leb. rewrite (row_compare_by_streams _ _ gk Hga Hgb), Hs.
    by rewrite (cmp_refl _
      (CmpOrder_na_last _ (CmpOrder_flip _ CmpOrder_cell))). }
  destruct (stable_sort_stable _ _ _ _ Hp Hle) as (i & j & Hij & Hi & Hj).
  fold (sort_values by_streams df) in Hi, Hj.
  destruct (lookup_lt_is_Some_2 (cumcount gcols (sort_values by_streams df)) i)
    as [ci Hci].
  { unfold cumcount. rewrite cumcount_by_length. by eapply lookup_lt_Some. }
  destruct (lookup_lt_is_Some_2 (cumcount gcols (sort_values by_streams df)) j)
    as [cj Hcj].
  { unfold cumcount. rewrite cumcount_by_length. by eapply lookup_lt_Some. }
  exists (Z.of_nat ci + 1), (Z.of_nat cj + 1). split.
  - exists i, j. split_and!; [done|apply ranked_lookup; eauto..].
  - assert (ci < cj)%nat; [|lia].
    eapply (cumcount_by_lt (group_key gcols)); eauto. congruence.
Qed.

(** A row of a table without duplicates gets one rank. *)
Lemma ranked_rank_unique df a v v' :
  NoDup df → (∀ r, r ∈ df → r !! "rank_year" = None) → a ∈ df →
  <["rank_year"%string := v]> a ∈ ranked df →
  <["rank_year"%string := v']> a ∈ ranked df →
  v = v'.
Proof.
  intros Hnd Hnone Ha [i Hi]%list_elem_of_lookup [j Hj]%list_elem_of_lookup.
  apply ranked_lookup in Hi as (ra & ci & Hra & Hci & Hi).
  apply ranked_lookup in Hj as (rb & cj & Hrb & Hcj & Hj).
  assert (∀ r w w', a !! "rank_year" = None → r !! "rank_year" = None →
    <["rank_year"%string := w]> a = <["rank_year"%string := w']> r →
    a = r ∧ w = w') as Hinj.
  { intros r w w' Han Hrn Heq. split.
    - rewrite <-(delete_insert_id a "rank_year"%string w),
        <-(delete_insert_id r "rank_year"%string w') by done. by rewrite Heq.
    - apply (f_equal (λ m : Row, m !! "rank_year"%string)) in Heq.
      rewrite !lookup_insert_eq in Heq. congruence. }
  assert (∀ r k, sort_values by_streams df !! k = Some r →
    r !! "rank_year" = None) as Hsn.
  { intros r k Hk. apply Hnone.
    rewrite <-(sort_values_Permutation by_streams df).
    by eapply list_elem_of_lookup_2. }
  apply Hinj in Hi as [<- ->]; [|by apply Hnone|by eapply Hsn].
  apply Hinj in Hj as [<- ->]; [|by apply Hnone|by eapply Hsn].
  assert (i = j) as ->; [|congruence].
  eapply (NoDup_lookup _ i j); [|exact Hra|exact Hrb].
  by apply stable_sort_NoDup.
Qed.

(** Ranking only adds a column. *)
Lemma ranked_Permutation df :
  delete "rank_year"%string <$> ranked df
  ≡ₚ delete "rank_year"%string <$> df.
Proof.
  trans (delete "rank_year"%string <$> sort_values by_streams df);
    [|by rewrite sort_values_Permutation].
  apply reflexive_eq. unfold ranked.
  rewrite with_rank_year_zip, <-list_fmap_compose.
  trans (delete "rank_year"%string <$>
    (zip (sort_values by_streams df)
    (cumcount gcols (sort_values by_streams df))).*1).
  - rewrite <-list_fmap_compose.
    apply list_fmap_ext. intros _ [r n] _. simpl. apply delete_insert_eq.
  - rewrite fst_zip; [done|].
    unfold cumcount. rewrite cumcount_by_length. lia.
Qed.
End RankFacts.

(** ** The rows of an aggregation *)

Section AggFacts.
Implicit Types (cols : list string) (df g : list Row) (r o : Row)
  (k : list Cell) (c : string)
  (aggs : list (string * (list Row → option Cell))).

Lemma lookup_foldl_put_ne aggs g (base : Row) c :
  c ∉ aggs.*1 →
  foldl (λ r a, put a.1 (a.2 g) r) base aggs !! c = base !! c.
Proof.
  revert base. induction aggs as [|a aggs IH]; intros base Hc; [done|].
  simpl. rewrite fmap_cons, not_elem_of_cons in Hc. destruct Hc as [Hne Hc].
  rewrite IH by done. rewrite lookup_put. by rewrite decide_False.
Qed.

(** A result row has the key of its group when no aggregate is named
    like a key column. *)
Lemma group_key_agg_row cols aggs g r k :
  (∀ c, c ∈ cols → c ∉ aggs.*1) →
  group_key cols r = Some k →
  group_key cols (foldl (λ r a, put a.1 (a.2 g) r) (key_row cols k) aggs)
  = Some k.
Proof.
  intros Hdisj Hk. rewrite <-(group_key_key_row cols r k Hk).
  apply group_key_ext. intros c Hc. apply lookup_foldl_put_ne. by apply Hdisj.
Qed.

Lemma agg_NoDup cols aggs df :
  (∀ c, c ∈ cols → c ∉ aggs.*1) → NoDup (agg cols aggs df).
Proof.
  intros Hdisj. unfold agg, groupby. rewrite <-list_fmap_compose.
  apply NoDup_fmap_2_strong; [|apply group_keys_NoDup].
  intros k1 k2 [r1 [_ Hk1]]%elem_of_group_keys
    [r2 [_ Hk2]]%elem_of_group_keys Heq. simpl in Heq.
  apply (f_equal (group_key cols)) in Heq.
  rewrite (group_key_agg_row cols aggs _ r1 k1 Hdisj Hk1) in Heq.
  rewrite (group_key_agg_row cols aggs _ r2 k2 Hdisj Hk2) in Heq.
  congruence.
Qed.

Lemma agg_lookup_None cols aggs df o c :
  o ∈ agg cols aggs df → c ∉ cols → c ∉ aggs.*1 → o !! c = None.
Proof.
  intros (r0 & k & _ & _ & ->)%elem_of_agg Hc1 Hc2.
  rewrite lookup_foldl_put_ne by done. by apply key_row_lookup_None.
Qed.

(** The key columns of a result row: those of a row of the input, whose
    group the row aggregates. *)
Lemma agg_lookup_key cols aggs df o :
  (∀ c, c ∈ cols → c ∉ aggs.*1) →
  o ∈ agg cols aggs df →
  ∃ r0 k, r0 ∈ df ∧ group_key cols r0 = Some k
  ∧ group_key cols o = Some k
  ∧ (∀ c, c ∈ cols → o !! c = r0 !! c)
  ∧ o = foldl (λ r a, put a.1
                (a.2 (filter (λ r, group_key cols r = Some k) df)) r)
              (key_row cols k) aggs.
Proof.
  intros Hdisj (r0 & k & Hr0 & Hk & ->)%elem_of_agg.
  exists r0, k. split_and!; try done.
  - by eapply group_key_agg_row.
  - intros c Hc. rewrite lookup_foldl_put_ne by (by apply Hdisj).
    by apply key_row_lookup.
Qed.
End AggFacts.

(** ** The country-year summary *)

Section SummaryFacts.
Implicit Types (df g : list Row) (r o : Row) (gk : list Cell).

Lemma row_key_group_key cols r r' :
  row_key cols r = row_key cols r' → group_key cols r = group_key cols r'.
Proof.
  intros Heq. apply group_key_ext. intros c [i Hi]%list_elem_of_lookup.
  apply (f_equal (λ l, l !! i)) in Heq. unfold row_key in Heq.
  rewrite !list_lookup_fmap, Hi in Heq. simpl in Heq. congruence.
Qed.

(** The key columns of an aggregation identify its rows. *)
Lemma agg_keys_NoDup cols aggs df :
  (∀ c, c ∈ cols → c ∉ aggs.*1) →
  NoDup (row_key cols <$> agg cols aggs df).
Proof.
  intros Hdisj. apply NoDup_fmap_2_strong; [|by apply agg_NoDup].
  intros o1 o2 Ho1 Ho2 Heq%row_key_group_key.
  apply (agg_lookup_key _ _ _ _ Hdisj) in Ho1
    as (_ & k1 & _ & _ & Hk1 & _ & ->).
  apply (agg_lookup_key _ _ _ _ Hdisj) in Ho2
    as (_ & k2 & _ & _ & Hk2 & _ & ->).
  rewrite Hk1, Hk2 in Heq. by simplify_eq.
Qed.



End SummaryFacts.

(** The example of the specification: two rows for US, one for CA. *)
Example cys_2021_us_ca :
  (λ o : Row, (o !! "region"%string, o !! "chart_rows"%string,
               o !! "total_streams"%string, o !! "avg_streams"%string))
    <$> cys_2021
          [ row_of [("region", Some (CStr "US")); ("year", Some (CInt 2021));
                    ("streams", Some (CInt 100))];
            row_of [("region", Some (CStr "US")); ("year", Some (CInt 2021));
                    ("streams", Some (CInt 50))];
            row_of [("region", Some (CStr "CA")); ("year", Some (CInt 2021));
                    ("streams", Some (CInt 10))] ]%string
  = [ (Some (CStr "CA"), Some (CInt 1), Some (CInt 10), Some (CFrac 10));
      (Some (CStr "US"), Some (CInt 2), Some (CInt 150), Some (CFrac 75)) ].
Proof. compute_done. Qed.



(** ** Top tracks and top artists *)

Section TopFacts.
Implicit Types (df grouped : list Row) (r o a b : Row) (gk : list Cell)
  (tk : string).

Local Abbreviation gcols := (["region"; "year"]%string).

Lemma track_key_cases cols :
  track_key cols = "url"%string ∨ track_key cols = "title"%string.
Proof. unfold track_key. case_decide; auto. Qed.

Lemma elem_of_ranked df o :
  o ∈ ranked df →
  ∃ r z, r ∈ df ∧ 1 ≤ z ∧ o = <["rank_year"%string := CInt z]> r.
Proof.
  intros [i (r & n & Hr & _ & ->)%ranked_lookup]%list_elem_of_lookup.
  exists r, (Z.of_nat n + 1). split_and!; [|lia|done].
  rewrite <-(sort_values_Permutation by_streams df).
  by eapply list_elem_of_lookup_2.
Qed.

Lemma elem_of_top_n limit df o :
  o ∈ top_n limit df ↔ rank_year_le limit o ∧ o ∈ ranked df.
Proof. apply list_elem_of_filter. Qed.

Lemma StronglySorted_filter {A : Type} (R : relation A) (P : A → Prop)
  `{!∀ x, Decision (P x)} (l : list A) :
  StronglySorted R l → StronglySorted R (filter P l).
Proof.
  induction 1 as [|x l Hs IH Hall]; [constructor|].
  rewrite filter_cons. case_decide; [|done].
  constructor; [done|]. rewrite Forall_forall in Hall |- *.
  intros y [_ Hy]%list_elem_of_filter. by apply Hall.
Qed.

Lemma StronglySorted_impl_elem_of {A : Type} (R R' : relation A) (l : list A) :
  (∀ x y, x ∈ l → y ∈ l → R x y → R' x y) →
  StronglySorted R l → StronglySorted R' l.
Proof.
  intros Himpl Hs. induction Hs as [|x l Hs IH Hall]; [constructor|].
  constructor.
  - apply IH. intros y z Hy Hz. apply Himpl; by right.
  - rewrite Forall_forall in Hall |- *. intros y Hy.
    apply Himpl; [left|by right|by apply Hall].
Qed.

Lemma filter_zip_fst {A B : Type} (P : A → Prop) `{!∀ x, Decision (P x)}
  (l : list A) (k : list B) :
  (length l ≤ length k)%nat →
  (filter (λ p : A * B, P p.1) (zip l k)).*1 = filter P l.
Proof.
  revert k. induction l as [|x l IH]; intros [|y k] Hlen; simpl in *;
    [done|done|lia|].
  rewrite !filter_cons. simpl. case_decide; csimpl; rewrite IH by lia; done.
Qed.

(** The rows of a (region, year) after ranking are its rows after the
    sort, with their ranks. *)
Lemma region_year_with_rank gk df :
  delete "rank_year"%string <$> region_year gk (with_rank_year df)
  = delete "rank_year"%string <$> region_year gk df.
Proof.
  unfold region_year. rewrite with_rank_year_zip, filter_fmap.
  rewrite (list_filter_iff _ (λ p : Row * nat, group_key gcols p.1 = Some gk))
    by (intros p; by rewrite group_key_rank_year).
  rewrite <-(filter_zip_fst (λ r, group_key gcols r = Some gk) df
    (cumcount gcols df))
    by (unfold cumcount; rewrite cumcount_by_length; lia).
  rewrite <-!list_fmap_compose. apply list_fmap_ext.
  intros _ [r n] _. simpl. apply delete_insert_eq.
Qed.

Lemma numbers_delete c c' (l : list Row) :
  c ≠ c' → numbers c (delete c' <$> l) = numbers c l.
Proof.
  intros Hne. unfold numbers. induction l as [|r l IH]; [done|].
  csimpl. rewrite IH. by rewrite lookup_delete_ne.
Qed.

(** The cut keeps the first rows of each (region, year). *)
Lemma filter_rank_year_take limit (g : list Row) start n :
  rank_years g = (λ i, Some (CInt (Z.of_nat i))) <$> seq start n →
  filter (rank_year_le limit) g = take (Z.to_nat (limit + 1) - start) g.
Proof.
  revert start n. induction g as [|o g IH]; intros start n Hr.
  - by rewrite take_nil.
  - destruct n as [|n]; [done|]. unfold rank_years in Hr.
    rewrite fmap_cons in Hr. simpl in Hr. injection Hr as Ho Hg.
    rewrite filter_cons, (IH (S start) n Hg).
    unfold rank_year_le. rewrite Ho. simpl. case_decide.
    + replace (Z.to_nat (limit + 1) - start)%nat
        with (S (Z.to_nat (limit + 1) - S start)) by lia. done.
    + replace (Z.to_nat (limit + 1) - start)%nat with 0%nat by lia.
      replace (Z.to_nat (limit + 1) - S start)%nat with 0%nat by lia.
      by rewrite take_0.
Qed.

Lemma top_n_take limit df gk :
  0 ≤ limit →
  region_year gk (top_n limit df)
  = take (Z.to_nat limit) (region_year gk (ranked df)).
Proof.
  intros Hlimit. unfold top_n.
  assert (region_year gk (filter (rank_year_le limit) (ranked df))
    = filter (rank_year_le limit) (region_year gk (ranked df))) as ->.
  { unfold region_year. rewrite !list_filter_filter.
    apply list_filter_iff. tauto. }
  rewrite (filter_rank_year_take limit _ 1
    (length (region_year gk (sort_values by_streams df))))
    by apply with_rank_year_group.
  f_equal. lia.
Qed.

(** Within a (region, year) the sort leaves the streams in descending
    order. *)
Lemma ranked_streams_sorted df gk :
  StronglySorted (λ x y, y ≤ x)
  (numbers "streams" (region_year gk (ranked df))).
Proof.
  unfold ranked.
  rewrite <-(numbers_delete "streams" "rank_year") by done.
  rewrite region_year_with_rank, numbers_delete by done.
  pose proof (stable_sort_Sorted (cmp_leb (row_compare by_streams))
    (cmp_leb_total _ (CmpOrder_row by_streams))
    (cmp_leb_trans _ (CmpOrder_row by_streams)) df) as Hs.
  fold (sort_values by_streams df) in Hs.
  apply (StronglySorted_filter _ (λ r, group_key gcols r = Some gk)) in Hs.
  fold (region_year gk (sort_values by_streams df)) in Hs.
  apply (StronglySorted_impl_elem_of _
    (λ a b, na_last (flip cell_compare)
    (a !! "streams") (b !! "streams") ≠ Gt)) in Hs.
  - unfold numbers. induction Hs as [|r l Hs IH Hall]; [constructor|].
    csimpl. destruct (r !! "streams"%string ≫= cell_int) as [s|] eqn:Hr;
      [|done].
    constructor; [done|]. apply Forall_forall. intros s'.
    intros (r' & Hr' & Hs')%list_elem_of_omap.
    rewrite Forall_forall in Hall. specialize (Hall r' Hr').
    destruct (r !! "streams"%string) as [[]|]; try done.
    destruct (r' !! "streams"%string) as [[]|]; try done.
    simpl in *. simplify_eq. unfold flip in Hall. simpl in Hall.
    by apply Z.compare_le_iff.
  - intros a b [Hga _]%list_elem_of_filter [Hgb _]%list_elem_of_filter.
    unfold cmp_leb. rewrite (row_compare_by_streams a b gk Hga Hgb).
    by destruct (na_last _ _ _).
Qed.

(** Equal streams: the rows keep the order they had before the sort,
    and each has one rank. *)
Lemma ranked_ties limit grouped a b gk :
  NoDup grouped → (∀ r, r ∈ grouped → r !! "rank_year" = None) →
  precedes grouped a b →
  group_key gcols a = Some gk → group_key gcols b = Some gk →
  a !! "streams" = b !! "streams" →
  ∃ za zb,
  precedes (ranked grouped) (<["rank_year"%string := CInt za]> a)
                            (<["rank_year"%string := CInt zb]> b)
  ∧ za < zb
  ∧ (∀ v, <["rank_year"%string := v]> a ∈ ranked grouped → v = CInt za)
  ∧ (∀ v, <["rank_year"%string := v]> b ∈ ranked grouped → v = CInt zb)
  ∧ (zb ≤ limit →
     precedes (top_n limit grouped)
       (<["rank_year"%string := CInt za]> a)
       (<["rank_year"%string := CInt zb]> b)).
Proof.
  intros Hnd Hnone Hp Hga Hgb Hs.
  destruct (ranked_stable grouped a b gk Hp Hga Hgb Hs)
    as (za & zb & Hpr & Hlt).
  exists za, zb.
  assert (a ∈ grouped ∧ b ∈ grouped) as [Ha Hb].
  { destruct Hp as (i & j & _ & Hi & Hj).
    split; by eapply list_elem_of_lookup_2. }
  assert (<["rank_year"%string := CInt za]> a ∈ ranked grouped
    ∧ <["rank_year"%string := CInt zb]> b ∈ ranked grouped)
    as [Hra Hrb].
  { destruct Hpr as (i & j & _ & Hi & Hj).
    split; by eapply list_elem_of_lookup_2. }
  split_and!; [done..| | |].
  - intros v Hv. by eapply (ranked_rank_unique grouped a).
  - intros v Hv. by eapply (ranked_rank_unique grouped b).
  - intros Hzb. unfold top_n.
    destruct Hpr as (i & j & Hij & Hi & Hj).
    apply precedes_filter; [by exists i, j|..];
      unfold rank_year_le; rewrite lookup_insert_eq; simpl; lia.
Qed.

Lemma streams_all_present (l : list Row) :
  (∀ o, o ∈ l → ∃ s, o !! "streams" = Some (CInt s)) →
  (λ o : Row, o !! "streams"%string) <$> l
  = Some ∘ CInt <$> numbers "streams" l.
Proof.
  unfold numbers. induction l as [|o l IH]; intros Hall; [done|].
  destruct (Hall o) as [s Hs]; [left|]. csimpl. rewrite Hs. simpl.
  f_equal. apply IH. intros o' Ho'. apply Hall. by right.
Qed.

Lemma ranked_streams_present grouped gk :
  (∀ o, o ∈ grouped → ∃ s, o !! "streams" = Some (CInt s)) →
  (λ o : Row, o !! "streams"%string) <$> region_year gk (ranked grouped)
  = Some ∘ CInt <$> numbers "streams" (region_year gk (ranked grouped)).
Proof.
  intros Hall. apply streams_all_present.
  intros o [_ Ho]%list_elem_of_filter.
  destruct (elem_of_ranked _ _ Ho) as (r & z & Hr & _ & ->).
  rewrite lookup_insert_ne by done. by apply Hall.
Qed.

Lemma tt_grouped_disjoint cols c :
  c ∈ ["region"; "year"; track_key cols; "title"; "artist"]%string →
  c ∉ ["streams"; "best_rank"; "days_on_chart"]%string.
Proof.
  revert c. apply Forall_forall.
  destruct (track_key_cases cols) as [-> | ->]; compute_done.
Qed.

Lemma tt_grouped_streams tk df o :
  o ∈ tt_grouped tk df → ∃ s, o !! "streams" = Some (CInt s).
Proof.
  intros (r0 & k & _ & _ & ->)%elem_of_agg. simpl. lookup_puts.
  unfold agg_sum. eauto.
Qed.

Lemma ay_grouped_streams tk df o :
  o ∈ ay_grouped tk df → ∃ s, o !! "streams" = Some (CInt s).
Proof.
  intros (r0 & k & _ & _ & ->)%elem_of_agg. simpl. lookup_puts.
  unfold agg_sum. eauto.
Qed.

Lemma tt_grouped_no_rank cols df o :
  o ∈ tt_grouped (track_key cols) df → o !! "rank_year" = None.
Proof.
  intros Ho. eapply agg_lookup_None; [done|..].
  - destruct (track_key_cases cols) as [-> | ->]; compute_done.
  - compute_done.
Qed.

Lemma ay_grouped_no_rank tk df o :
  o ∈ ay_grouped tk df → o !! "rank_year" = None.
Proof. intros Ho. eapply agg_lookup_None; [done|compute_done..]. Qed.

Lemma tt_grouped_NoDup cols df : NoDup (tt_grouped (track_key cols) df).
Proof. apply agg_NoDup. intros c. apply tt_grouped_disjoint. Qed.

Lemma ay_grouped_NoDup tk df : NoDup (ay_grouped tk df).
Proof. apply agg_NoDup. disjoint_columns. Qed.
End TopFacts.

(** C4: take the entries of a (region, year) in the order of the ranking.
    Their [rank_year] values are 1, 2, ..., n, where n is the number of
    grouped entries of that (region, year); their summed streams are in
    descending order; and the output of [tt_2021] (limit 500) and of
    [ay_2021] (limit 200) keeps the first 500 (200) of them, so the ranks
    in the output are 1, ..., min(n, limit) and the entries left out are
    those that come last, with the smallest sums.  Ranking only adds the
    column: every grouped entry is ranked. *)
Theorem rank_year_contiguous (tk : string) (df : list Row) (gk : list Cell) :
  let tt := region_year gk (ranked (tt_grouped tk df)) in
  let ay := region_year gk (ranked (ay_grouped tk df)) in
  (rank_years tt
   = (λ i, Some (CInt (Z.of_nat i)))
       <$> seq 1 (length (region_year gk (tt_grouped tk df)))
   ∧ (λ o : Row, o !! "streams"%string) <$> tt
     = Some ∘ CInt <$> numbers "streams" tt
   ∧ StronglySorted (λ x y, y ≤ x) (numbers "streams" tt)
   ∧ region_year gk (tt_2021 tk df) = take 500 tt
   ∧ rank_years (region_year gk (tt_2021 tk df))
     = (λ i, Some (CInt (Z.of_nat i)))
         <$> seq 1 (length (region_year gk (tt_grouped tk df)) `min` 500)
   ∧ delete "rank_year"%string <$> ranked (tt_grouped tk df)
     ≡ₚ delete "rank_year"%string <$> tt_grouped tk df)
  ∧ (rank_years ay
     = (λ i, Some (CInt (Z.of_nat i)))
         <$> seq 1 (length (region_year gk (ay_grouped tk df)))
     ∧ (λ o : Row, o !! "streams"%string) <$> ay
       = Some ∘ CInt <$> numbers "streams" ay
     ∧ StronglySorted (λ x y, y ≤ x) (numbers "streams" ay)
     ∧ region_year gk (ay_2021 tk df) = take 200 ay
     ∧ rank_years (region_year gk (ay_2021 tk df))
       = (λ i, Some (CInt (Z.of_nat i)))
           <$> seq 1 (length (region_year gk (ay_grouped tk df)) `min` 200)
     ∧ delete "rank_year"%string <$> ranked (ay_grouped tk df)
       ≡ₚ delete "rank_year"%string <$> ay_grouped tk df).
Proof.
  cbv zeta. split; split_and!.
  - unfold ranked. rewrite with_rank_year_group.
    by rewrite (region_year_Permutation gk _ _ (sort_values_Permutation _ _)).
  - apply ranked_streams_present, tt_grouped_streams.
  - apply ranked_streams_sorted.
  - by apply (top_n_take 500).
  - by apply top_n_group.
  - apply ranked_Permutation.
  - unfold ranked. rewrite with_rank_year_group.
    by rewrite (region_year_Permutation gk _ _ (sort_values_Permutation _ _)).
  - apply ranked_streams_present, ay_grouped_streams.
  - apply ranked_streams_sorted.
  - by apply (top_n_take 200).
  - by apply top_n_group.
  - apply ranked_Permutation.
Qed.

(** C6: two entries of the same (region, year) with equal summed streams
    keep, in the ranking of [tt_2021] and of [ay_2021], the order they had
    after grouping: the entry that came first receives the smaller
    [rank_year], each entry receives one rank, and when the later one is
    within the limit both are in the output, in that order. *)
Theorem rank_ties_keep_grouping_order (cols : list string) (df : list Row)
    (a b : Row) (gk : list Cell) :
  group_key ["region"; "year"]%string a = Some gk →
  group_key ["region"; "year"]%string b = Some gk →
  a !! "streams" = b !! "streams" →
  (precedes (tt_grouped (track_key cols) df) a b →
   ∃ za zb,
     precedes (ranked (tt_grouped (track_key cols) df))
       (<["rank_year"%string := CInt za]> a)
       (<["rank_year"%string := CInt zb]> b)
     ∧ za < zb
     ∧ (∀ v, <["rank_year"%string := v]> a
               ∈ ranked (tt_grouped (track_key cols) df) → v = CInt za)
     ∧ (∀ v, <["rank_year"%string := v]> b
               ∈ ranked (tt_grouped (track_key cols) df) → v = CInt zb)
     ∧ (zb ≤ 500 →
        precedes (tt_2021 (track_key cols) df)
          (<["rank_year"%string := CInt za]> a)
          (<["rank_year"%string := CInt zb]> b)))
  ∧ (precedes (ay_grouped (track_key cols) df) a b →
     ∃ za zb,
       precedes (ranked (ay_grouped (track_key cols) df))
         (<["rank_year"%string := CInt za]> a)
         (<["rank_year"%string := CInt zb]> b)
       ∧ za < zb
       ∧ (∀ v, <["rank_year"%string := v]> a
                 ∈ ranked (ay_grouped (track_key cols) df) → v = CInt za)
       ∧ (∀ v, <["rank_year"%string := v]> b
                 ∈ ranked (ay_grouped (track_key cols) df) → v = CInt zb)
       ∧ (zb ≤ 200 →
          precedes (ay_2021 (track_key cols) df)
            (<["rank_year"%string := CInt za]> a)
            (<["rank_year"%string := CInt zb]> b))).
Proof.
  intros Hga Hgb Hs. split; intros Hp.
  - apply (ranked_ties 500 _ a b gk); try done.
    + apply tt_grouped_NoDup.
    + intros r. apply tt_grouped_no_rank.
  - apply (ranked_ties 200 _ a b gk); try done.
    + apply ay_grouped_NoDup.
    + intros r. apply ay_grouped_no_rank.
Qed.

Lemma rank_ties_keep_grouping_order_witness :
  (∃ za zb,
     precedes (tt_2021 (track_key charts_columns)
                 (df_2021 iso_pandas tied_charts))
       (<["rank_year"%string := CInt za]>
          (track_entry "t/1" "Alpha" "Ann" 100 2 1))
       (<["rank_year"%string := CInt zb]>
          (track_entry "t/2" "Beta" "Bob" 100 3 2))
     ∧ za < zb)
  ∧ (∃ za zb,
       precedes (ay_2021 (track_key charts_columns)
                   (df_2021 iso_pandas tied_charts))
         (<["rank_year"%string := CInt za]> (artist_entry "Ann" 100 1 1 2))
         (<["rank_year"%string := CInt zb]> (artist_entry "Bob" 100 1 2 3))
       ∧ za < zb).
Proof.
  split.
  - destruct (rank_ties_keep_grouping_order charts_columns
      (df_2021 iso_pandas tied_charts)
      (track_entry "t/1" "Alpha" "Ann" 100 2 1)
      (track_entry "t/2" "Beta" "Bob" 100 3 2)
      [CStr "US"; CInt 2021])
      as [Htt _]; [reflexivity..|].
    destruct Htt as (za & zb & _ & Hlt & _ & Hzb & Hout).
    { exists 0%nat, 1%nat. split_and!; [lia|compute_done..]. }
    exists za, zb. split; [|done]. apply Hout.
    assert (CInt 3 = CInt zb) as [= <-]; [|lia].
    apply Hzb. compute_done.
  - destruct (rank_ties_keep_grouping_order charts_columns
      (df_2021 iso_pandas tied_charts)
      (artist_entry "Ann" 100 1 1 2)
      (artist_entry "Bob" 100 1 2 3)
      [CStr "US"; CInt 2021])
      as [_ Hay]; [reflexivity..|].
    destruct Hay as (za & zb & _ & Hlt & _ & Hzb & Hout).
    { exists 0%nat, 1%nat. split_and!; [lia|compute_done..]. }
    exists za, zb. split; [|done]. apply Hout.
    assert (CInt 3 = CInt zb) as [= <-]; [|lia].
    apply Hzb. compute_done.
Defined.

(** The truncation example of the specification. *)
Example top_500_of_501 :
  keeps_top_500_of_501 (tt_2021 "url" (df_2021 iso_pandas (tracks 501))).
Proof. compute_done. Qed.

(** ** The track identifier *)

Section TrackKeyFacts.
Implicit Types (df : list Row) (r o : Row) (gk : list Cell).

Local Abbreviation gcols := (["region"; "year"]%string).

Lemma track_key_url cols : track_key cols = "url"%string ↔ "url"%string ∈ cols.
Proof. unfold track_key. case_decide; naive_solver. Qed.

Lemma backfill_Some pd raw fs out :
  backfill pd raw fs = Some out →
  "url"%string ∈ df_2021_columns (columns raw)
  ∧ out = {|
      country_year_summary :=
        Some (append_dedupe (country_year_summary fs)
                (cys_2021 (df_2021 pd (rows raw))) ["region"; "year"]%string);
      top_tracks_country_year_top500 :=
        Some (append_dedupe (top_tracks_country_year_top500 fs)
                (tt_2021 "url" (df_2021 pd (rows raw)))
                ["region"; "year"; "url"]%string);
      artist_country_year_top200 :=
        Some (append_dedupe (artist_country_year_top200 fs)
                (ay_2021 "url" (df_2021 pd (rows raw)))
                ["region"; "year"; "artist"]%string)
    |}.
Proof.
  unfold backfill. intros Hrun.
  repeat case_guard; simplify_eq/=.
  assert ("url"%string ∈ df_2021_columns (columns raw)) as Hurl.
  { match goal with H : has_columns ["url"; "artist"]%string _ |- _ =>
      by apply Forall_cons in H as [? _] end. }
  split; [done|]. by rewrite (proj2 (track_key_url _) Hurl).
Qed.

(** The rows of the top tracks carry the url, title and artist of the
    chart rows of their group, all of which have a url. *)
Lemma tt_2021_url df o :
  o ∈ tt_2021 "url" df →
  ∃ r, r ∈ df ∧ is_Some (r !! "url")
       ∧ o !! "url" = r !! "url" ∧ o !! "title" = r !! "title"
       ∧ o !! "artist" = r !! "artist".
Proof.
  intros [_ Ho]%elem_of_top_n.
  destruct (elem_of_ranked _ _ Ho) as (r' & z & Hr' & _ & ->).
  apply agg_lookup_key in Hr' as (r0 & k & Hr0 & Hk & _ & Hkeys & _);
    [|disjoint_columns].
  exists r0. rewrite !lookup_insert_ne by done.
  split_and!; [done| |apply Hkeys; compute_done..].
  eapply group_key_present; [done|compute_done].
Qed.


Lemma cys_2021_unique_tracks df o :
  o ∈ cys_2021 df →
  ∃ gk, group_key gcols o = Some gk
        ∧ o !! "unique_tracks"
          = Some (CInt (Z.of_nat
                    (length (remove_dups
                       (present "url" (region_year gk df)))))).
Proof.
  intros Ho.
  apply agg_lookup_key in Ho as (r0 & gk & Hr0 & Hk & Hgk & _ & ->);
    [|disjoint_columns].
  exists gk. split; [done|]. simpl. by lookup_puts.
Qed.

Lemma ay_2021_track_count df o :
  o ∈ ay_2021 "url" df →
  ∃ k, group_key ["region"; "year"; "artist"]%string o = Some k
       ∧ o !! "track_count"
         = Some (CInt (Z.of_nat (length (remove_dups (present "url"
             (filter (λ r, group_key ["region"; "year"; "artist"]%string r
                             = Some k) df)))))).
Proof.
  intros [_ Ho]%elem_of_top_n.
  destruct (elem_of_ranked _ _ Ho) as (r' & z & Hr' & _ & ->).
  apply agg_lookup_key in Hr' as (r0 & k & Hr0 & Hk & Hgk & _ & ->);
    [|disjoint_columns].
  exists k. split.
  - etrans; [|exact Hgk]. apply group_key_ext. intros c Hc.
    apply lookup_insert_ne. intros <-. revert Hc. compute_done.
  - rewrite lookup_insert_ne by done. simpl. by lookup_puts.
Qed.

Lemma df_2021_region_year pd raw r :
  r ∈ df_2021 pd raw →
  ∃ s, group_key gcols r = Some [CStr s; CInt 2021].
Proof.
  rewrite df_2021_rows.
  intros (r0 & -> & [(_ & [c Hc] & _) _]%list_elem_of_filter)%list_elem_of_fmap.
  exists (astype_str pd c). apply group_key_region_year.
  eexists _, _. split; [done|]. unfold clean. cbv zeta. split.
  - rewrite lookup_assign, decide_False by done.
    rewrite lookup_assign, decide_True by done.
    rewrite !lookup_assign, !decide_False by done.
    by rewrite Hc.
  - by rewrite lookup_assign, decide_True.
Qed.

End TrackKeyFacts.

(** C8, as stated, fails: the identifier is not chosen row by row.  Of two
    chart rows of one region, the second without url but with a title,
    [unique_tracks] counts one identifier where url-or-title gives two, and
    the top tracks have one entry: the row without url is in none. *)
Lemma unique_tracks_ignores_titles :
  ∃ o, cys_2021 (df_2021 iso_pandas no_url_charts) = [o]
       ∧ o !! "unique_tracks" = Some (CInt 1)
       ∧ unique_tracks_spec (df_2021 iso_pandas no_url_charts) = 2
       ∧ o !! "unique_tracks"
         ≠ Some (CInt (unique_tracks_spec (df_2021 iso_pandas no_url_charts)))
       ∧ length (tt_2021 (track_key charts_columns)
                   (df_2021 iso_pandas no_url_charts)) = 1%nat.
Proof.
  exists (default ∅ (cys_2021 (df_2021 iso_pandas no_url_charts) !! 0%nat)).
  compute_done.
Qed.

(** C8 (amended): the track identifier is a column, chosen once for the
    whole table: [url] when the table has a url column.  In every run of
    the script that completes, it is [url]: the top tracks are grouped on
    it and merged on (region, year, url), every row of the top tracks
    carries the url of the chart rows it sums, [unique_tracks] is the
    number of distinct urls present in the rows of the (region, year) and
    [track_count] that in the rows of the artist.  A row without url adds
    no identifier, whatever its title. *)
Theorem track_key_is_url_column :
  (∀ cols : list string, track_key cols = "url"%string ↔ "url"%string ∈ cols)
  ∧ (∀ (r : Row) (g : list Row),
       r !! "url" = None → present "url" (r :: g) = present "url" g)
  ∧ ∀ (pd : Pandas) (raw : DataFrame) (fs out : Exports),
      backfill pd raw fs = Some out →
      let df := df_2021 pd (rows raw) in
      track_key (df_2021_columns (columns raw)) = "url"%string
      ∧ top_tracks_country_year_top500 out
        = Some (append_dedupe (top_tracks_country_year_top500 fs)
                  (tt_2021 "url" df) ["region"; "year"; "url"]%string)
      ∧ (∀ o : Row,
           o ∈ tt_2021 "url" df →
           ∃ r, r ∈ df ∧ is_Some (r !! "url")
                ∧ o !! "url" = r !! "url" ∧ o !! "title" = r !! "title"
                ∧ o !! "artist" = r !! "artist")
      ∧ (∀ o : Row,
           o ∈ cys_2021 df →
           ∃ gk, group_key ["region"; "year"]%string o = Some gk
                 ∧ o !! "unique_tracks"
                   = Some (CInt (Z.of_nat (length (remove_dups
                       (present "url" (region_year gk df)))))))
      ∧ (∀ o : Row,
           o ∈ ay_2021 "url" df →
           ∃ k, group_key ["region"; "year"; "artist"]%string o = Some k
                ∧ o !! "track_count"
                  = Some (CInt (Z.of_nat (length (remove_dups (present "url"
                      (filter
                         (λ r, group_key ["region"; "year"; "artist"]%string r
                               = Some k) df))))))).
Proof.
  split_and!.
  - apply track_key_url.
  - intros r g Hr. unfold present. csimpl. by rewrite Hr.
  - intros pd raw fs out [Hurl ->]%backfill_Some. cbv zeta. split_and!.
    + by apply track_key_url.
    + done.
    + apply tt_2021_url.
    + apply cys_2021_unique_tracks.
    + apply ay_2021_track_count.
Qed.

Lemma track_key_is_url_column_witness :
  ∃ out,
    backfill iso_pandas (mkFrame charts_columns no_url_charts) no_exports
    = Some out
    ∧ track_key (df_2021_columns charts_columns) = "url"%string
    ∧ top_tracks_country_year_top500 out
      = Some (tt_2021 "url" (df_2021 iso_pandas no_url_charts)).
Proof.
  destruct (backfill iso_pandas (mkFrame charts_columns no_url_charts)
    no_exports) as [out|] eqn:Hrun; [|by vm_compute in Hrun].
  exists out. split; [done|].
  destruct track_key_is_url_column as (_ & _ & Hrun').
  destruct (Hrun' _ _ _ _ Hrun) as (Htk & Htt & _).
  split; [exact Htk|exact Htt].
Defined.



(** ** The columns of the exports and the dashboards *)

Section ColumnFacts.
Implicit Types (df : list Row) (o : Row) (c tk : string).

Lemma agg_columns cols aggs df o c :
  o ∈ agg cols aggs df → is_Some (o !! c) → c ∈ cols ++ aggs.*1.
Proof.
  intros Ho Hc. destruct (decide (c ∈ cols ++ aggs.*1)) as [|Hn]; [done|].
  rewrite elem_of_app in Hn.
  rewrite (agg_lookup_None cols aggs df o c) in Hc by tauto.
  by destruct Hc.
Qed.

Lemma top_n_columns limit cols aggs df o c :
  o ∈ top_n limit (agg cols aggs df) → is_Some (o !! c) →
  c ∈ cols ++ aggs.*1 ++ ["rank_year"%string].
Proof.
  intros [_ Ho]%elem_of_top_n Hc.
  destruct (elem_of_ranked _ _ Ho) as (r & z & Hr & _ & ->).
  rewrite !elem_of_app. destruct (decide (c = "rank_year"%string)) as [->|Hne].
  - right. right. left.
  - rewrite lookup_insert_ne in Hc by done.
    apply (agg_columns _ _ _ _ _ Hr), elem_of_app in Hc. tauto.
Qed.

(** The script writes the columns listed for its three tables, no other. *)
Lemma cys_2021_columns df o c :
  o ∈ cys_2021 df → is_Some (o !! c) → c ∈ cys_columns.
Proof. apply agg_columns. Qed.

Lemma tt_2021_columns tk df o c :
  o ∈ tt_2021 tk df → is_Some (o !! c) → c ∈ tt_columns tk.
Proof. apply top_n_columns. Qed.

Lemma ay_2021_columns tk df o c :
  o ∈ ay_2021 tk df → is_Some (o !! c) → c ∈ ay_columns.
Proof.
  intros Ho Hc. pose proof (top_n_columns _ _ _ _ _ _ Ho Hc) as Hin.
  revert Hin. simpl. unfold ay_columns. rewrite !elem_of_cons. tauto.
Qed.
End ColumnFacts.

(** Merged into an export that has the columns the dashboards read, the
    rows the script writes carry none of [country] and [iso3], and the
    rows that were there, which have no [region], count as duplicates of
    each other: of the three rows of 2020 one is left. *)
Example backfill_collapses_dashboard_rows :
  (λ out, (λ l : list Row,
             (λ o : Row, (o !! "country"%string, o !! "region"%string,
                          o !! "year"%string)) <$> l)
            <$> country_year_summary out)
    <$> backfill iso_pandas (mkFrame charts_columns summary_charts)
          (mkExports (Some dashboard_summary) None None)
  = Some (Some
      [ (Some (CStr "Japan"), None, Some (CInt 2020));
        (None, Some (CStr "CA"), Some (CInt 2021));
        (None, Some (CStr "JP"), Some (CInt 2021));
        (None, Some (CStr "US"), Some (CInt 2021)) ]).
Proof. compute_done. Qed.

(** C9 fails on the code: both dashboards select [country], [iso3] and
    [avg_rank] from the country-year summary, [country], [streams_sum],
    [track_name], [artist_name] and [days_charted] from the top tracks and
    [artist_name], [streams_sum] and [country] from the artists table, and
    the script writes none of these columns: in the exports a run creates,
    every such cell is missing. *)
Theorem dashboards_read_columns_not_written :
  filter (λ c, c ∉ cys_columns) streamlit_cys_reads
  = ["iso3"; "country"; "avg_rank"]%string
  ∧ filter (λ c, c ∉ cys_columns) shiny_cys_reads
    = ["iso3"; "country"; "avg_rank"]%string
  ∧ filter (λ c, c ∉ tt_columns "url") streamlit_tt_reads
    = ["country"; "streams_sum"; "track_name"; "artist_name";
       "days_charted"]%string
  ∧ filter (λ c, c ∉ tt_columns "url") shiny_tt_reads
    = ["country"; "streams_sum"; "track_name"; "artist_name";
       "days_charted"]%string
  ∧ filter (λ c, c ∉ ay_columns) streamlit_ay_reads
    = ["artist_name"; "streams_sum"; "country"]%string
  ∧ filter (λ c, c ∉ ay_columns) shiny_ay_reads
    = ["artist_name"; "streams_sum"; "country"]%string
  ∧ ∃ cys tt ay,
      backfill iso_pandas (mkFrame charts_columns summary_charts) no_exports
      = Some (mkExports (Some cys) (Some tt) (Some ay))
      ∧ length cys = 3%nat ∧ length tt = 4%nat ∧ length ay = 4%nat
      ∧ Forall (λ o : Row, Forall (λ c, o !! c = None)
                             ["iso3"; "country"; "avg_rank"]%string) cys
      ∧ Forall (λ o : Row, Forall (λ c, o !! c = None)
                             ["country"; "streams_sum"; "track_name";
                              "artist_name"; "days_charted"]%string) tt
      ∧ Forall (λ o : Row, Forall (λ c, o !! c = None)
                             ["artist_name"; "streams_sum"; "country"]%string)
               ay.
Proof.
  split_and!; [compute_done..|].
  exists (cys_2021 (df_2021 iso_pandas summary_charts)),
    (tt_2021 "url" (df_2021 iso_pandas summary_charts)),
    (ay_2021 "url" (df_2021 iso_pandas summary_charts)).
  split; [reflexivity|]. split_and!; [reflexivity..| | |].
  - apply Forall_forall. intros o Ho. apply Forall_forall. intros c Hc.
    apply eq_None_not_Some. intros Hoc.
    assert (c ∈ cys_columns) as Hin by (by eapply cys_2021_columns).
    refine (proj1 (Forall_forall (λ c, c ∉ _) _) _ c Hc Hin). compute_done.
  - apply Forall_forall. intros o Ho. apply Forall_forall. intros c Hc.
    apply eq_None_not_Some. intros Hoc.
    assert (c ∈ tt_columns "url") as Hin by (by eapply tt_2021_columns).
    refine (proj1 (Forall_forall (λ c, c ∉ _) _) _ c Hc Hin). compute_done.
  - apply Forall_forall. intros o Ho. apply Forall_forall. intros c Hc.
    apply eq_None_not_Some. intros Hoc.
    assert (c ∈ ay_columns) as Hin by (by eapply ay_2021_columns).
    refine (proj1 (Forall_forall (λ c, c ∉ _) _) _ c Hc Hin). compute_done.
Qed.

(* ================================================================== *)
(** * Part III: further properties of the script *)
(* ================================================================== *)

(** ** What a merge keeps *)

(** X1: a merge into an existing table neither alters nor reorders rows: the
    result is a sub-sequence of the old rows followed by the new ones, and
    it holds exactly the keys found in either table. *)
Theorem append_dedupe_sublist_keys (old new : list Row) (keys : list string) :
  append_dedupe (Some old) new keys `sublist_of` old ++ new
  ∧ ∀ k, k ∈ row_key keys <$> append_dedupe (Some old) new keys
         ↔ k ∈ row_key keys <$> old ∨ k ∈ row_key keys <$> new.
Proof.
  split.
  - apply dedup_last_sublist.
  - intros k. simpl. unfold drop_duplicates_last.
    by rewrite dedup_last_keys, fmap_app, elem_of_app.
Qed.

(** ** When a run completes *)





(** ** What every cleaned row looks like *)



(** ** The country-year summary *)

Section GroupSums.
Context {A K : Type} `{EqDecision K}.
Implicit Types (l : list A) (ks : list K) (w : A → Z).





End GroupSums.

Lemma length_remove_dups_le {A : Type} `{EqDecision A} (l : list A) :
  (length (remove_dups l) ≤ length l)%nat.
Proof.
  induction l as [|x l IH]; simpl; [done|].
  case_decide; simpl; lia.
Qed.

Lemma length_omap_le {A B : Type} (f : A → option B) (l : list A) :
  (length (omap f l) ≤ length l)%nat.
Proof.
  induction l as [|x l IH]; csimpl; [done|].
  destruct (f x); simpl; lia.
Qed.



Section AggSums.
Implicit Types (cols : list string) (df g : list Row) (r o : Row)
  (k : list Cell) (c : string)
  (aggs : list (string * (list Row → option Cell))).

Lemma agg_group_keys cols aggs df :
  agg cols aggs df =
  (λ k, foldl (λ r a, put a.1
                 (a.2 (filter (λ r, group_key cols r = Some k) df)) r)
          (key_row cols k) aggs) <$> group_keys cols df.
Proof. unfold agg, groupby. by rewrite <-list_fmap_compose. Qed.



End AggSums.

(** X4: the summary has one row for each region of the cleaned table, all of
    the year 2021, in ascending order of the region names (by code
    point), which is the order of the groups of [groupby]. *)
Theorem cys_2021_regions_ascending (pd : Pandas) (raw : list Row) :
  ∃ regions : list string,
    (λ o : Row, (o !! "region", o !! "year"))
      <$> cys_2021 (df_2021 pd raw)
    = (λ s, (Some (CStr s), Some (CInt 2021))) <$> regions
    ∧ StronglySorted (λ s t, String.compare s t = Lt) regions
    ∧ ∀ s, s ∈ regions
           ↔ ∃ r, r ∈ df_2021 pd raw ∧ r !! "region" = Some (CStr s).
Proof.
  set (df := df_2021 pd raw).
  set (cols := ["region"; "year"]%string).
  assert (∀ ks : list (list Cell),
            (∀ k, k ∈ ks → ∃ s, k = [CStr s; CInt 2021]) →
            ∃ ss, ks = (λ s, [CStr s; CInt 2021]) <$> ss) as Hshape.
  { induction ks as [|k ks IH]; intros Hks; [by exists []|].
    destruct (Hks k) as [s ->]; [left|].
    destruct IH as [ss ->]; [intros k' Hk'; apply Hks; by right|].
    by exists (s :: ss). }
  destruct (Hshape (group_keys cols df)) as [regions Hregions].
  { intros k [r [Hr Hk]]%elem_of_group_keys.
    destruct (df_2021_region_year pd raw r Hr) as [s Hs].
    exists s. unfold cols in Hk. congruence. }
  exists regions. split_and!.
  - unfold cys_2021. fold cols. rewrite agg_group_keys, Hregions.
    rewrite <-!list_fmap_compose. apply list_fmap_ext. intros _ s _. simpl.
    by lookup_puts.
  - assert (NoDup regions) as Hnd.
    { eapply (NoDup_fmap_1 (λ s, [CStr s; CInt 2021])).
      rewrite <-Hregions. apply group_keys_NoDup. }
    pose proof (stable_sort_Sorted
      (cmp_leb (list_compare cell_compare))
      (cmp_leb_total _ (CmpOrder_list _ CmpOrder_cell))
      (cmp_leb_trans _ (CmpOrder_list _ CmpOrder_cell))
      (remove_dups (omap (group_key cols) df))) as Hsorted.
    fold (group_keys cols df) in Hsorted. rewrite Hregions in Hsorted.
    clear Hregions Hshape. induction regions as [|s ss IH]; [constructor|].
    rewrite fmap_cons in Hsorted.
    apply StronglySorted_inv in Hsorted as [Hss Hs].
    apply NoDup_cons in Hnd as [Hin Hnd].
    constructor; [by apply IH|].
    apply Forall_forall. intros t Ht.
    rewrite Forall_fmap, Forall_forall in Hs. specialize (Hs t Ht).
    unfold cmp_leb in Hs. simpl in Hs.
    destruct (String.compare s t) eqn:Hst; [|done..].
    apply String.compare_eq_iff in Hst. congruence.
  - intros s. split.
    + intros Hs.
      assert ([CStr s; CInt 2021] ∈ group_keys cols df) as Hk
        by (rewrite Hregions; apply list_elem_of_fmap; by exists s).
      apply elem_of_group_keys in Hk as [r [Hr Hk]]. exists r.
      split; [done|].
      apply group_key_region_year in Hk as (x & y & [= <- <-] & Hx & _).
      done.
    + intros [r [Hr Hs]].
      destruct (df_2021_region_year pd raw r Hr) as [s' Hk].
      assert ([CStr s'; CInt 2021] ∈ group_keys cols df) as Hin
        by (apply elem_of_group_keys; by exists r).
      apply group_key_region_year in Hk as (x & y & [= <- <-] & Hx & _).
      rewrite Hregions in Hin.
      apply list_elem_of_fmap in Hin as (s'' & [= ->] & Hin). congruence.
Qed.



(** ** The grouped tables *)





Lemma foldr_min_spec (n : Z) (ns : list Z) :
  foldr Z.min n ns ∈ n :: ns ∧ Forall (λ x, foldr Z.min n ns ≤ x) (n :: ns).
Proof.
  induction ns as [|x ns [IHin IHle]]; simpl.
  - split; [left|]. constructor; [lia|constructor].
  - apply Forall_cons in IHle as [Hn Hns]. split.
    + destruct (Z.min_spec x (foldr Z.min n ns)) as [[_ ->]|[_ ->]].
      * right; left.
      * apply elem_of_cons in IHin as [->|Hin]; [left|by do 2 right].
    + repeat constructor; [lia..|].
      eapply Forall_impl; [exact Hns|]. intros y Hy. simpl in Hy. lia.
Qed.

Lemma agg_min_spec c (g : list Row) :
  (∀ r, r ∈ g → ∃ z, r !! c = Some (CInt z)) → g ≠ [] →
  ∃ m, agg_min c g = Some (CInt m)
       ∧ m ∈ numbers c g ∧ Forall (λ x, m ≤ x) (numbers c g)
       ∧ length (numbers c g) = length g.
Proof.
  intros Hint Hg. unfold agg_min.
  assert (length (numbers c g) = length g) as Hlen.
  { clear Hg. unfold numbers. induction g as [|r g IH]; [done|]. csimpl.
    destruct (Hint r) as [z ->]; [left|]. simpl. f_equal. apply IH.
    intros r' Hr'. apply Hint. by right. }
  destruct (numbers c g) as [|n ns] eqn:Hns.
  - destruct g; [done|]. discriminate Hlen.
  - exists (foldr Z.min n ns).
    destruct (foldr_min_spec n ns) as [Hin Hle]. by split_and!.
Qed.

Lemma agg_nunique_bounds c (g : list Row) :
  (∀ r, r ∈ g → is_Some (r !! c)) → g ≠ [] →
  ∃ d, agg_nunique c g = Some (CInt d) ∧ 1 ≤ d ≤ Z.of_nat (length g).
Proof.
  intros Hc Hg. unfold agg_nunique. eexists. split; [done|].
  pose proof (length_remove_dups_le (present c g)).
  pose proof (length_omap_le (λ r : Row, r !! c) g).
  unfold present in *. split; [|lia].
  destruct g as [|r g]; [done|]. destruct (Hc r) as [v Hv]; [left|].
  assert (v ∈ remove_dups (omap (λ r : Row, r !! c) (r :: g))) as Hin.
  { apply elem_of_remove_dups, list_elem_of_omap. exists r. split; [left|done]. }
  destruct (remove_dups _); [by apply elem_of_nil in Hin|]. simpl. lia.
Qed.

Lemma df_2021_rank_date pd raw r :
  r ∈ df_2021 pd raw →
  (∃ z, r !! "rank" = Some (CInt z)) ∧ is_Some (r !! "date").
Proof.
  rewrite df_2021_rows.
  intros (r0 & -> & [(Hy & _ & _ & [k Hk]) _]%list_elem_of_filter)
    %list_elem_of_fmap.
  unfold clean. cbv zeta. split.
  - repeat (rewrite !lookup_assign; simpl). rewrite Hk. by eexists.
  - rewrite !lookup_assign. simpl. unfold parse_date.
    unfold parsed_year in Hy.
    destruct (r0 !! "date"%string) as [dc|]; [|done]. simpl in *.
    by destruct (to_datetime pd dc).
Qed.

(** X7: in every row written for a track or an artist the best rank is the
    smallest rank among the cleaned rows of its group, each of which has a
    rank, and the days on chart are at least one and at most the number of
    these rows. *)
Theorem best_rank_is_minimum (pd : Pandas) (raw : list Row)
    (cols : list string) :
  let df := df_2021 pd raw in
  let tk := track_key cols in
  let stats (by_cols : list string) (o : Row) :=
    ∃ k m d,
      group_key by_cols o = Some k
      ∧ let g := filter (λ r, group_key by_cols r = Some k) df in
        g ≠ []
        ∧ length (numbers "rank" g) = length g
        ∧ o !! "best_rank" = Some (CInt m)
        ∧ m ∈ numbers "rank" g
        ∧ Forall (λ x, m ≤ x) (numbers "rank" g)
        ∧ o !! "days_on_chart" = Some (CInt d)
        ∧ 1 ≤ d ≤ Z.of_nat (length g) in
  Forall (stats ["region"; "year"; tk; "title"; "artist"]%string)
    (tt_2021 tk df)
  ∧ Forall (stats ["region"; "year"; "artist"]%string) (ay_2021 tk df).
Proof.
  intros df tk stats.
  assert (∀ by_cols aggs o,
            (∀ c, c ∈ by_cols → c ∉ aggs.*1) →
            "rank_year"%string ∉ by_cols →
            (∀ g (base : Row),
               foldl (λ r a, put a.1 (a.2 g) r) base aggs !! "best_rank"
               = agg_min "rank" g
               ∧ foldl (λ r a, put a.1 (a.2 g) r) base aggs
                   !! "days_on_chart"
                 = agg_nunique "date" g) →
            o ∈ ranked (agg by_cols aggs df) → stats by_cols o) as Hstats.
  { intros by_cols aggs o Hdisj Hrank Haggs Ho.
    apply elem_of_ranked in Ho as (r' & z & Hr' & _ & ->).
    apply agg_lookup_key in Hr' as (r0 & k & Hr0 & Hk & Hk' & _ & ->);
      [|done].
    set (g := filter _ df) in *.
    assert (r0 ∈ g) as Hg by (by apply list_elem_of_filter).
    assert (g ≠ []) as Hne by (intros Hnil; rewrite Hnil in Hg;
                               by apply elem_of_nil in Hg).
    destruct (agg_min_spec "rank" g) as (m & Hm & Hin & Hle & Hlen);
      [|done|].
    { intros r [_ Hr]%list_elem_of_filter.
      by apply (df_2021_rank_date pd raw r). }
    destruct (agg_nunique_bounds "date" g) as (d & Hd & Hbounds); [|done|].
    { intros r [_ Hr]%list_elem_of_filter.
      by apply (df_2021_rank_date pd raw r). }
    destruct (Haggs g (key_row by_cols k)) as [Hbest Hdays].
    exists k, m, d. split.
    - rewrite <-Hk'. apply group_key_ext. intros c Hc.
      apply lookup_insert_ne. by intros <-.
    - cbv zeta. fold g. split_and!; try done.
      + rewrite lookup_insert_ne by done. by rewrite Hbest.
      + rewrite lookup_insert_ne by done. by rewrite Hdays.
      + lia.
      + lia. }
  split; apply Forall_forall; intros o [_ Ho]%elem_of_top_n.
  - eapply Hstats; [| | |exact Ho].
    + intros c Hc. by apply (tt_grouped_disjoint cols).
    + unfold tk. destruct (track_key_cases cols) as [-> | ->]; compute_done.
    + intros g base. simpl. split; by lookup_puts.
  - eapply Hstats; [| | |exact Ho].
    + disjoint_columns.
    + compute_done.
    + intros g base. simpl. split; by lookup_puts.
Qed.

(** ** The order of the rows written *)

Lemma StronglySorted_zip_with {A B C : Type} (R : relation A)
    (R' : relation C) (f : A → B → C) (l : list A) (k : list B) :
  (∀ a b x y, R a b → R' (f a x) (f b y)) →
  StronglySorted R l → StronglySorted R' (zip_with f l k).
Proof.
  intros Hf Hl. revert k.
  induction Hl as [|a l Hl IH Ha]; intros [|x k]; simpl; try constructor.
  - apply IH.
  - apply Forall_forall. intros z (b & y & -> & Hb & _)%elem_of_zip_with.
    apply Hf. rewrite Forall_forall in Ha. by apply Ha.
Qed.

Lemma fmap_zip_with_inv {A B C : Type} (f : A → B → A) (g : A → C)
    (l : list A) (k : list B) :
  (∀ x y, g (f x y) = g x) → (length l ≤ length k)%nat →
  g <$> zip_with f l k = g <$> l.
Proof.
  intros Hg. revert k. induction l as [|a l IH]; intros [|x k] Hlen;
    simpl in *; try done; try lia.
  rewrite Hg. f_equal. apply IH. lia.
Qed.

Lemma row_compare_rank_year a b va vb :
  row_compare by_streams (<["rank_year"%string := va]> a)
                         (<["rank_year"%string := vb]> b)
  = row_compare by_streams a b.
Proof. simpl. by rewrite !lookup_insert_ne by done. Qed.

Lemma ranked_sorted df :
  StronglySorted (λ a b, row_compare by_streams a b ≠ Gt) (ranked df).
Proof.
  unfold ranked, with_rank_year.
  apply (StronglySorted_zip_with
    (λ a b, cmp_leb (row_compare by_streams) a b = true)).
  - intros a b x y Hab. rewrite row_compare_rank_year.
    unfold cmp_leb in Hab. by destruct (row_compare by_streams a b).
  - apply stable_sort_Sorted.
    + apply cmp_leb_total, CmpOrder_row.
    + apply cmp_leb_trans, CmpOrder_row.
Qed.

Lemma grouped_row_2021 pd raw cols aggs o :
  (∀ c, c ∈ cols → c ∉ aggs.*1) →
  "region"%string ∈ cols → "year"%string ∈ cols →
  o ∈ agg cols aggs (df_2021 pd raw) →
  ∃ s, o !! "region" = Some (CStr s) ∧ o !! "year" = Some (CInt 2021).
Proof.
  intros Hdisj Hregion Hyear Ho.
  apply agg_lookup_key in Ho as (r0 & k & Hr0 & _ & _ & Hcols & _); [|done].
  destruct (df_2021_region_year pd raw r0 Hr0) as [s Hs].
  apply group_key_region_year in Hs as (x & y & [= <- <-] & Hx & Hy).
  exists s. by rewrite !Hcols.
Qed.

Lemma top_row_2021 pd raw cols aggs limit o :
  (∀ c, c ∈ cols → c ∉ aggs.*1) →
  "region"%string ∈ cols → "year"%string ∈ cols →
  o ∈ top_n limit (agg cols aggs (df_2021 pd raw)) →
  ∃ s, o !! "region" = Some (CStr s) ∧ o !! "year" = Some (CInt 2021).
Proof.
  intros Hdisj Hregion Hyear [_ Ho]%elem_of_top_n.
  apply elem_of_ranked in Ho as (r' & z & Hr' & _ & ->).
  rewrite !lookup_insert_ne by done. by eapply grouped_row_2021.
Qed.

Lemma top_row_streams limit grouped o :
  (∀ r, r ∈ grouped → ∃ x, r !! "streams" = Some (CInt x)) →
  o ∈ top_n limit grouped → ∃ x, o !! "streams" = Some (CInt x).
Proof.
  intros Hstreams [_ Ho]%elem_of_top_n.
  apply elem_of_ranked in Ho as (r' & z & Hr' & _ & ->).
  rewrite lookup_insert_ne by done. by apply Hstreams.
Qed.

(** X8: both ranked tables are written in the order of the sort of lines 75
    and 90: the regions ascend (by code point) through the table, and
    within a region the streams descend. *)
Theorem top_tables_order (pd : Pandas) (raw : list Row) (cols : list string) :
  let df := df_2021 pd raw in
  let tk := track_key cols in
  let in_order (a b : Row) :=
    ∃ s t x y,
      a !! "region" = Some (CStr s) ∧ b !! "region" = Some (CStr t)
      ∧ a !! "streams" = Some (CInt x) ∧ b !! "streams" = Some (CInt y)
      ∧ (String.compare s t = Lt ∨ s = t ∧ y ≤ x) in
  StronglySorted in_order (tt_2021 tk df)
  ∧ StronglySorted in_order (ay_2021 tk df).
Proof.
  intros df tk in_order.
  assert (∀ limit grouped,
    (∀ o, o ∈ top_n limit grouped →
          ∃ s, o !! "region" = Some (CStr s)
               ∧ o !! "year" = Some (CInt 2021)) →
    (∀ r, r ∈ grouped → ∃ x, r !! "streams" = Some (CInt x)) →
    StronglySorted in_order (top_n limit grouped)) as Hsorted.
  { intros limit grouped Hkey Hstreams.
    eapply StronglySorted_impl_elem_of;
      [|apply StronglySorted_filter, ranked_sorted].
    intros a b Ha Hb Hab. fold (top_n limit grouped) in Ha, Hb.
    destruct (Hkey a Ha) as (s & Hs & Hya), (Hkey b Hb) as (t & Ht & Hyb).
    destruct (top_row_streams _ _ _ Hstreams Ha) as [x Hx].
    destruct (top_row_streams _ _ _ Hstreams Hb) as [y Hy].
    exists s, t, x, y. split_and!; try done.
    simpl in Hab. rewrite Hs, Ht, Hya, Hyb, Hx, Hy in Hab. simpl in Hab.
    destruct (String.compare s t) eqn:Hst; [|by left|done].
    right. apply String.compare_eq_iff in Hst. split; [done|].
    unfold flip in Hab. by destruct (Z.compare_spec y x); [lia..|]. }
  split; apply Hsorted.
  - intros o Ho. eapply top_row_2021; [| | |exact Ho]; [|compute_done..].
    intros c Hc. by apply (tt_grouped_disjoint cols).
  - apply tt_grouped_streams.
  - intros o Ho.
    eapply top_row_2021; [| | |exact Ho]; [disjoint_columns|compute_done..].
  - apply ay_grouped_streams.
Qed.

(** ** Running the script again *)

Lemma row_key_rank_year keys (r : Row) v :
  "rank_year"%string ∉ keys →
  row_key keys (<["rank_year"%string := v]> r) = row_key keys r.
Proof.
  intros Hk. unfold row_key. apply list_fmap_ext. intros i c Hc.
  apply lookup_insert_ne. intros <-. by apply list_elem_of_lookup_2 in Hc.
Qed.

Lemma top_n_keys_NoDup keys limit grouped :
  "rank_year"%string ∉ keys →
  NoDup (row_key keys <$> grouped) →
  NoDup (row_key keys <$> top_n limit grouped).
Proof.
  intros Hk Hnd. eapply sublist_NoDup;
    [|apply fmap_sublist, sublist_filter].
  unfold ranked, with_rank_year. rewrite fmap_zip_with_inv.
  - by rewrite sort_values_Permutation.
  - intros r n. by apply row_key_rank_year.
  - unfold cumcount. by rewrite cumcount_by_length.
Qed.

(** X19: the summary is written with one row for each (region, year) and
    the artists file with one row for each (region, year, artist),
    whatever the input and whether or not the file existed: unlike the
    top tracks, these two files hold no two rows with one key after a
    first write either. *)
Theorem summary_and_artists_keys_unique (tk : string) (df : list Row)
    (existing : option (list Row)) :
  NoDup (row_key ["region"; "year"]%string
           <$> append_dedupe existing (cys_2021 df)
                 ["region"; "year"]%string)
  ∧ NoDup (row_key ["region"; "year"; "artist"]%string
             <$> append_dedupe existing (ay_2021 tk df)
                   ["region"; "year"; "artist"]%string).
Proof.
  split; (destruct existing as [old|]; [apply dedup_last_NoDup|]); simpl.
  - apply agg_keys_NoDup. disjoint_columns.
  - apply top_n_keys_NoDup; [compute_done|].
    apply agg_keys_NoDup. disjoint_columns.
Qed.

Lemma backfill_any_exports pd raw fs fs' :
  is_Some (backfill pd raw fs) → is_Some (backfill pd raw fs').
Proof.
  intros [out Hrun]. unfold backfill in *.
  repeat case_guard; simplify_eq/=. by eexists.
Qed.

Lemma append_dedupe_again existing new keys :
  append_dedupe
    (Some (append_dedupe (Some (append_dedupe existing new keys)) new keys))
    new keys
  = append_dedupe (Some (append_dedupe existing new keys)) new keys.
Proof. apply dedup_last_again. Qed.

Lemma append_dedupe_settled existing new keys :
  NoDup (row_key keys <$> new) →
  append_dedupe (Some (append_dedupe existing new keys)) new keys
  = append_dedupe existing new keys.
Proof.
  intros Hnd. destruct existing as [old|].
  - apply dedup_last_again.
  - simpl. unfold drop_duplicates_last.
    by rewrite dedup_last_twice, dedup_last_id.
Qed.

(** X9: a run that completes can be repeated on the files it wrote.  The
    second run leaves the summary and the artists file as the first wrote
    them, whether or not they existed before; from the second run on, a
    further run changes none of the three files. *)
Theorem backfill_rerun (pd : Pandas) (raw : DataFrame) (fs out1 : Exports) :
  backfill pd raw fs = Some out1 →
  ∃ out2,
    backfill pd raw out1 = Some out2
    ∧ country_year_summary out2 = country_year_summary out1
    ∧ artist_country_year_top200 out2 = artist_country_year_top200 out1
    ∧ backfill pd raw out2 = Some out2.
Proof.
  intros Hrun1.
  destruct (backfill_any_exports pd raw fs out1) as [out2 Hrun2];
    [by eexists|].
  destruct (backfill_any_exports pd raw fs out2) as [out3 Hrun3];
    [by eexists|].
  exists out2. split; [done|].
  apply backfill_Some in Hrun1 as [_ ->].
  apply backfill_Some in Hrun2 as [_ ->].
  rewrite Hrun3. apply backfill_Some in Hrun3 as [_ ->].
  cbn [country_year_summary top_tracks_country_year_top500
       artist_country_year_top200].
  split_and!.
  - f_equal. apply append_dedupe_settled, agg_keys_NoDup. disjoint_columns.
  - f_equal. apply append_dedupe_settled, top_n_keys_NoDup; [compute_done|].
    apply agg_keys_NoDup. disjoint_columns.
  - by rewrite !append_dedupe_again.
Qed.

Lemma backfill_rerun_witness :
  ∃ out1 out2,
    backfill iso_pandas (mkFrame charts_columns retitled_charts) no_exports
    = Some out1
    ∧ backfill iso_pandas (mkFrame charts_columns retitled_charts) out1
      = Some out2
    ∧ backfill iso_pandas (mkFrame charts_columns retitled_charts) out2
      = Some out2.
Proof.
  destruct (backfill iso_pandas (mkFrame charts_columns retitled_charts)
    no_exports) as [out1|] eqn:Hrun; [|by vm_compute in Hrun].
  destruct (backfill_rerun _ _ _ _ Hrun) as (out2 & Hrun2 & _ & _ & Hrun3).
  by exists out1, out2.
Defined.

(** ** Rows of other years *)

Lemma append_dedupe_other_years old new keys :
  "year"%string ∈ keys →
  (∀ o, o ∈ new → o !! "year" = Some (CInt 2021)) →
  filter (λ r : Row, r !! "year" ≠ Some (CInt 2021))
    (append_dedupe (Some old) new keys)
  = filter (λ r : Row, r !! "year" ≠ Some (CInt 2021))
      (drop_duplicates_last keys old).
Proof.
  intros Hyear Hnew. rewrite append_dedupe_split, filter_app.
  rewrite list_filter_filter.
  assert (∀ r o : Row, row_key keys r = row_key keys o →
                       r !! "year" = o !! "year") as Hkey.
  { intros r o Hro. unfold row_key in Hro.
    apply list_elem_of_lookup in Hyear as [i Hi].
    apply (f_equal (λ l, l !! i)) in Hro.
    rewrite !list_lookup_fmap, Hi in Hro. simpl in Hro. congruence. }
  assert (filter (λ r : Row, r !! "year" ≠ Some (CInt 2021))
            (drop_duplicates_last keys new) = []) as ->.
  { apply elem_of_nil_inv. intros o [Ho Hin]%list_elem_of_filter.
    apply Ho, Hnew. by eapply elem_of_dedup_last_1. }
  rewrite app_nil_r. apply list_filter_iff. intros r. split; [tauto|].
  intros Hr. split; [done|].
  intros (o & Hro & Ho)%list_elem_of_fmap.
  apply Hr. rewrite (Hkey r o Hro). by apply Hnew.
Qed.

Lemma cys_row_2021 pd raw o :
  o ∈ cys_2021 (df_2021 pd raw) → o !! "year" = Some (CInt 2021).
Proof.
  intros Ho. eapply grouped_row_2021 in Ho as (s & _ & Hy);
    [done|disjoint_columns|compute_done..].
Qed.

Lemma tt_row_2021 pd raw cols o :
  o ∈ tt_2021 (track_key cols) (df_2021 pd raw) →
  o !! "year" = Some (CInt 2021).
Proof.
  intros Ho. eapply top_row_2021 in Ho as (s & _ & Hy);
    [done| |compute_done..].
  intros c Hc. by apply (tt_grouped_disjoint cols).
Qed.

Lemma ay_row_2021 pd raw tk o :
  o ∈ ay_2021 tk (df_2021 pd raw) → o !! "year" = Some (CInt 2021).
Proof.
  intros Ho. eapply top_row_2021 in Ho as (s & _ & Hy);
    [done|disjoint_columns|compute_done..].
Qed.

(** X10: a run writes rows of the year 2021 only and leaves the rows of other
    years of the existing files in place and in order: in each file they
    are the rows of other years of the old file, deduplicated on the keys
    of the file.  A file the run creates holds no row of another year. *)
Theorem backfill_keeps_other_years (pd : Pandas) (raw : DataFrame)
    (fs out : Exports) :
  backfill pd raw fs = Some out →
  let other (t : list Row) :=
    filter (λ r : Row, r !! "year" ≠ Some (CInt 2021)) t in
  let kept (keys : list string) (old : option (list Row)) :=
    Some (default [] (other ∘ drop_duplicates_last keys <$> old)) in
  other <$> country_year_summary out
  = kept ["region"; "year"]%string (country_year_summary fs)
  ∧ other <$> top_tracks_country_year_top500 out
    = kept ["region"; "year"; "url"]%string
        (top_tracks_country_year_top500 fs)
  ∧ other <$> artist_country_year_top200 out
    = kept ["region"; "year"; "artist"]%string
        (artist_country_year_top200 fs).
Proof.
  intros [Hurl ->]%backfill_Some other kept. simpl.
  assert (∀ existing new keys,
            "year"%string ∈ keys →
            (∀ o, o ∈ new → o !! "year" = Some (CInt 2021)) →
            Some (other (append_dedupe existing new keys))
            = kept keys existing) as Hkept.
  { intros [old|] new keys Hyear Hnew; unfold kept; simpl; f_equal.
    - by apply append_dedupe_other_years.
    - apply elem_of_nil_inv. intros o [Ho Hin]%list_elem_of_filter.
      by apply Ho, Hnew. }
  assert ("year"%string ∈ ["region"; "year"]%string) by compute_done.
  assert ("year"%string ∈ ["region"; "year"; "url"]%string) by compute_done.
  assert ("year"%string ∈ ["region"; "year"; "artist"]%string)
    by compute_done.
  split_and!; apply Hkept; try done.
  - apply cys_row_2021.
  - intros o. rewrite <-(proj2 (track_key_url _) Hurl). apply tt_row_2021.
  - apply ay_row_2021.
Qed.

Lemma backfill_keeps_other_years_witness :
  ∃ out,
    backfill iso_pandas (mkFrame charts_columns no_url_charts)
      (mkExports (Some merge_existing) None None) = Some out
    ∧ filter (λ r : Row, r !! "year" ≠ Some (CInt 2021))
        <$> country_year_summary out
      = Some merge_existing.
Proof.
  destruct (backfill iso_pandas (mkFrame charts_columns no_url_charts)
    (mkExports (Some merge_existing) None None)) as [out|] eqn:Hrun;
    [|by vm_compute in Hrun].
  exists out. split; [done|].
  destruct (backfill_keeps_other_years _ _ _ _ Hrun) as (Hcys & _).
  refine (eq_trans Hcys _). compute_done.
Defined.

(** ** The exports directory *)

Lemma path_parents_app (root : Path) (dir file : string) :
  path_parents (root ++ [dir; file]) 1 = Some root.
Proof.
  unfold path_parents. rewrite length_app. simpl.
  rewrite decide_True by lia. f_equal.
  replace (length root + 2 - 2)%nat with (length root + 0)%nat by lia.
  by rewrite take_app_add, app_nil_r.
Qed.

(** X11: the script writes to [exports] under the repository root from either
    place it may be run from: a directory directly under the root, when
    the root is not itself named Shiny_migration, or a directory under
    [Shiny_migration].  The Shiny application under [Shiny_migration]
    reads [Shiny_migration/exports], a directory the script writes to from
    neither place.  A script file directly under the file system root
    fails with [IndexError]. *)
Theorem exports_directories (root : Path) (dir file : string) :
  (path_name root ≠ "Shiny_migration"%string →
   EXPORTS (root ++ [dir; file]) = Some (root ++ ["exports"%string]))
  ∧ EXPORTS (root ++ ["Shiny_migration"%string; dir; file])
    = Some (root ++ ["exports"%string])
  ∧ shiny_EXPORTS (root ++ ["Shiny_migration"; file]%string)
    = root ++ ["Shiny_migration"; "exports"]%string
  ∧ shiny_EXPORTS (root ++ ["Shiny_migration"; file]%string)
    ≠ root ++ ["exports"%string]
  ∧ EXPORTS [file] = None.
Proof.
  split_and!.
  - intros Hname. unfold EXPORTS, REPO_ROOT.
    rewrite path_parents_app. cbn [mbind option_bind].
    by rewrite decide_False.
  - unfold EXPORTS, REPO_ROOT.
    replace (root ++ ["Shiny_migration"%string; dir; file])
      with ((root ++ ["Shiny_migration"%string]) ++ [dir; file])
      by (by rewrite <-app_assoc).
    rewrite path_parents_app. cbn [mbind option_bind].
    unfold path_name, path_parent. rewrite last_snoc, removelast_last.
    cbn [default]. by rewrite decide_True.
  - unfold shiny_EXPORTS, shiny_HERE, path_parent, path_join.
    replace (root ++ ["Shiny_migration"; file]%string)
      with ((root ++ ["Shiny_migration"%string]) ++ [file])
      by (by rewrite <-app_assoc).
    by rewrite removelast_last, <-app_assoc.
  - unfold shiny_EXPORTS, shiny_HERE, path_parent, path_join.
    replace (root ++ ["Shiny_migration"; file]%string)
      with ((root ++ ["Shiny_migration"%string]) ++ [file])
      by (by rewrite <-app_assoc).
    rewrite removelast_last, <-app_assoc. intros Heq.
    apply app_inv_head in Heq. discriminate Heq.
  - done.
Qed.

(* ================================================================== *)
(** * Part IV: properties of the dashboards *)
(* ================================================================== *)

(** ** World View *)

Section WorldViewFacts.
Context (log10 : Cell → Cell).



End WorldViewFacts.



(** ** The choices offered *)

Lemma cmp_leb_true {A : Type} (cmp : A → A → comparison) x y :
  cmp_leb cmp x y = true ↔ cmp x y ≠ Gt.
Proof. unfold cmp_leb. destruct (cmp x y); naive_solver. Qed.

Lemma cell_compare_trans x y z :
  cell_compare x y ≠ Gt → cell_compare y z ≠ Gt → cell_compare x z ≠ Gt.
Proof.
  rewrite <-!cmp_leb_true. apply cmp_leb_trans, CmpOrder_cell.
Qed.

Lemma cell_compare_refl x : cell_compare x x ≠ Gt.
Proof. by rewrite (cmp_refl _ CmpOrder_cell). Qed.

Lemma cell_compare_not_Lt x y :
  cell_compare y x ≠ Lt → cell_compare x y ≠ Gt.
Proof.
  rewrite (cmp_sym _ CmpOrder_cell y x). by destruct (cell_compare y x).
Qed.

Lemma cell_compare_not_Gt x y :
  cell_compare x y = Gt → cell_compare y x ≠ Gt.
Proof. rewrite (cmp_sym _ CmpOrder_cell x y). by intros ->. Qed.

Lemma py_min_spec (l : list Cell) (m : Cell) :
  py_min l = Some m → m ∈ l ∧ ∀ x, x ∈ l → cell_compare m x ≠ Gt.
Proof.
  destruct l as [|m0 l]; [done|]. simpl. intros [= <-].
  revert m0. induction l as [|y l IH]; intros m0; simpl.
  - split; [left|]. intros x ->%list_elem_of_singleton.
    apply cell_compare_refl.
  - destruct (IH (if decide (cell_compare y m0 = Lt) then y else m0))
      as [Hin Hle].
    set (m1 := if decide (cell_compare y m0 = Lt) then y else m0) in *.
    set (m := foldl _ m1 l) in *.
    assert (cell_compare m m1 ≠ Gt) as Hm1 by (apply Hle; left).
    assert (cell_compare m1 m0 ≠ Gt ∧ cell_compare m1 y ≠ Gt) as [H0 Hy].
    { unfold m1. case_decide as Hlt.
      - split; [by rewrite Hlt|apply cell_compare_refl].
      - split; [apply cell_compare_refl|by apply cell_compare_not_Lt]. }
    split.
    + apply elem_of_cons in Hin as [Hin|Hin]; [|by do 2 right].
      rewrite Hin. unfold m1. case_decide; [right; left|left].
    + intros x [->|[->|Hx]%elem_of_cons]%elem_of_cons.
      * by eapply cell_compare_trans.
      * by eapply cell_compare_trans.
      * apply Hle. by right.
Qed.

Lemma py_max_spec (l : list Cell) (m : Cell) :
  py_max l = Some m → m ∈ l ∧ ∀ x, x ∈ l → cell_compare x m ≠ Gt.
Proof.
  destruct l as [|m0 l]; [done|]. simpl. intros [= <-].
  revert m0. induction l as [|y l IH]; intros m0; simpl.
  - split; [left|]. intros x ->%list_elem_of_singleton.
    apply cell_compare_refl.
  - destruct (IH (if decide (cell_compare y m0 = Gt) then y else m0))
      as [Hin Hle].
    set (m1 := if decide (cell_compare y m0 = Gt) then y else m0) in *.
    set (m := foldl _ m1 l) in *.
    assert (cell_compare m1 m ≠ Gt) as Hm1 by (apply Hle; left).
    assert (cell_compare m0 m1 ≠ Gt ∧ cell_compare y m1 ≠ Gt) as [H0 Hy].
    { unfold m1. case_decide as Hgt.
      - split; [by apply cell_compare_not_Gt|apply cell_compare_refl].
      - split; [apply cell_compare_refl|done]. }
    split.
    + apply elem_of_cons in Hin as [Hin|Hin]; [|by do 2 right].
      rewrite Hin. unfold m1. case_decide; [right; left|left].
    + intros x [->|[->|Hx]%elem_of_cons]%elem_of_cons.
      * by eapply cell_compare_trans.
      * by eapply cell_compare_trans.
      * apply Hle. by right.
Qed.

Lemma elem_of_sorted_unique col (df : list Row) c :
  c ∈ sorted_unique col df ↔ c ∈ present col df.
Proof.
  unfold sorted_unique. by rewrite elem_of_stable_sort, elem_of_remove_dups.
Qed.

Lemma sorted_unique_nil col (df : list Row) :
  sorted_unique col df = [] ↔ present col df = [].
Proof.
  split; intros Hnil; apply elem_of_nil_inv; intros c Hc.
  - apply elem_of_sorted_unique in Hc. rewrite Hnil in Hc.
    by apply elem_of_nil in Hc.
  - apply elem_of_sorted_unique in Hc. rewrite Hnil in Hc.
    by apply elem_of_nil in Hc.
Qed.


(** X14: the slider of the year spans the years of the summary and starts at
    the latest: its bounds are years of the table, no year of the table
    lies outside them, and the value is the upper bound.  A table in
    which every year is missing stops [app.py] with [ValueError], while
    [_init_choices] leaves the slider as it is. *)
Theorem year_slider_covers (cys : DataFrame) :
  "year"%string ∈ columns cys →
  let years := present "year" (rows cys) in
  (years = [] → year_slider cys = None ∧ wv_year_slider cys = Some None)
  ∧ ∀ lo hi value : Z,
      year_slider cys = Some (lo, hi, value) →
      value = hi
      ∧ (∃ cmin cmax,
           cmin ∈ years ∧ cmax ∈ years
           ∧ py_int cmin = Some lo ∧ py_int cmax = Some hi
           ∧ wv_year_slider cys = Some (Some (cmin, cmax, cmax))
           ∧ ∀ c, c ∈ years →
                  cell_compare cmin c ≠ Gt ∧ cell_compare c cmax ≠ Gt)
      ∧ ((∀ c, c ∈ years → ∃ z, c = CInt z) →
         CInt lo ∈ years ∧ CInt hi ∈ years
         ∧ ∀ z, CInt z ∈ years → lo ≤ z ≤ hi).
Proof.
  intros Hcol years. unfold year_slider, wv_year_slider, ALL_YEARS.
  rewrite option_guard_True by done. cbn [mbind option_bind]. split.
  - intros Hnil. apply sorted_unique_nil in Hnil. by rewrite Hnil.
  - intros lo hi value Hslider.
    destruct (py_min (sorted_unique "year" (rows cys))) as [cmin|] eqn:Hmin;
      [|done].
    destruct (py_max (sorted_unique "year" (rows cys))) as [cmax|] eqn:Hmax;
      [|by simplify_option_eq].
    cbn [mbind option_bind] in Hslider.
    destruct (py_int cmin) as [lo'|] eqn:Hlo; [|done].
    destruct (py_int cmax) as [hi'|] eqn:Hhi; [|done].
    cbn [mbind option_bind] in Hslider. injection Hslider as <- <- <-.
    apply py_min_spec in Hmin as [Hmin_in Hmin].
    apply py_max_spec in Hmax as [Hmax_in Hmax].
    apply elem_of_sorted_unique in Hmin_in, Hmax_in.
    assert (∀ c, c ∈ years →
                 cell_compare cmin c ≠ Gt ∧ cell_compare c cmax ≠ Gt) as Hall.
    { intros c Hc%elem_of_sorted_unique. split; [by apply Hmin|by apply Hmax]. }
    split_and!; [done| |].
    + exists cmin, cmax. by split_and!.
    + intros Hint.
      destruct (Hint cmin Hmin_in) as [zlo ->].
      destruct (Hint cmax Hmax_in) as [zhi ->].
      simpl in Hlo, Hhi. injection Hlo as ->. injection Hhi as ->.
      split_and!; [done..|].
      intros z [H1 H2]%Hall. simpl in H1, H2.
      destruct (Z.compare_spec lo' z), (Z.compare_spec z hi'); try done; lia.
Qed.

Lemma year_slider_covers_witness :
  year_slider world_summary = Some (2019, 2020, 2020)
  ∧ wv_year_slider world_summary
    = Some (Some (CInt 2019, CInt 2020, CInt 2020)).
Proof.
  assert ("year"%string ∈ columns world_summary) as Hcol by compute_done.
  assert (year_slider world_summary = Some (2019, 2020, 2020)) as Hrun
    by reflexivity.
  destruct (year_slider_covers world_summary Hcol) as [_ Hcover].
  destruct (Hcover _ _ _ Hrun)
    as (_ & (cmin & cmax & _ & _ & _ & _ & Hshiny & _) & _).
  split; [done|]. reflexivity.
Defined.



(** ** The tables of the best *)

Lemma sort_values_SortValues : SortValues stable_sort_by.
Proof.
  split; intros c asc df; unfold stable_sort_by.
  - apply sort_values_Permutation.
  - eapply StronglySorted_impl_elem_of;
      [|apply stable_sort_Sorted;
        [apply cmp_leb_total, CmpOrder_row|apply cmp_leb_trans, CmpOrder_row]].
    intros x y _ _. apply cmp_leb_true.
Qed.

Lemma head_rows_split {A : Type} (n : Z) (l : list A) :
  ∃ rest, l = head_rows n l ++ rest.
Proof.
  unfold head_rows. case_decide; eexists; by rewrite take_drop.
Qed.

Lemma head_rows_length {A : Type} (n : Z) (l : list A) :
  0 ≤ n → length (head_rows n l) = (Z.to_nat n `min` length l)%nat.
Proof.
  intros Hn. unfold head_rows. rewrite decide_True by done.
  rewrite length_take. lia.
Qed.

Lemma row_compare_not_above c (a b : Row) :
  row_compare [(c, false)] a b ≠ Gt ↔ not_above c a b.
Proof.
  simpl. unfold not_above, flip.
  destruct (a !! c) as [x|], (b !! c) as [y|]; simpl; try naive_solver.
  by destruct (cell_compare y x).
Qed.

Section TopFacts.
Context (sort_by : string → bool → list Row → list Row).
Context (Hsort : SortValues sort_by).

Lemma sort_by_top c (n : Z) (df : list Row) :
  ∃ rest,
    head_rows n (sort_by c false df) ++ rest ≡ₚ df
    ∧ StronglySorted (not_above c) (head_rows n (sort_by c false df))
    ∧ ∀ a b, a ∈ head_rows n (sort_by c false df) → b ∈ rest →
             not_above c a b.
Proof.
  destruct (head_rows_split n (sort_by c false df)) as [rest Hsplit].
  pose proof (sort_by_Sorted sort_by Hsort c false df) as Hsorted.
  apply (StronglySorted_impl_elem_of _ (not_above c)) in Hsorted;
    [|intros x y _ _; apply row_compare_not_above].
  rewrite Hsplit in Hsorted. exists rest. split_and!.
  - rewrite <-Hsplit. apply (sort_by_Permutation sort_by Hsort).
  - by eapply StronglySorted_app_1_l.
  - intros a b Ha Hb. by eapply StronglySorted_app_1_elem_of.
Qed.
End TopFacts.

(** X13: the table of the top countries holds the first [n] rows of the map
    in descending order of their total streams: as many rows as asked
    for, or all rows of the map when there are fewer, and no row left out
    has more streams than a row shown.  Which of several rows with equal
    streams are shown is not determined. *)
Theorem top_countries_are_top
    (sort_by : string → bool → list Row → list Row) (log10 : Cell → Cell)
    (cys : DataFrame) (y : Z) (wv_log : bool) (n : Z) (t : list Row) :
  SortValues sort_by →
  wv_top_table sort_by log10 cys y wv_log n = Some t →
  ∃ df shown rest,
    wv_df_map log10 cys y wv_log = Some df
    ∧ shown ++ rest ≡ₚ df
    ∧ t = select ["country"; "total_streams"; "unique_artists";
                  "unique_tracks"]%string <$> shown
    ∧ (0 ≤ n → length t = (Z.to_nat n `min` length df)%nat)
    ∧ StronglySorted (not_above "total_streams") shown
    ∧ ∀ a b, a ∈ shown → b ∈ rest → not_above "total_streams" a b.
Proof.
  intros Hsort Ht. unfold wv_top_table in Ht.
  destruct (wv_df_map log10 cys y wv_log) as [df|]; [|done].
  cbn [mbind option_bind] in Ht. case_guard; [|done].
  cbn [mbind option_bind] in Ht. injection Ht as <-.
  destruct (sort_by_top sort_by Hsort "total_streams" n df)
    as (rest & Hperm & Hsorted & Htop).
  exists df, (head_rows n (sort_by "total_streams" false df)), rest.
  split_and!; try done.
  intros Hn. rewrite length_fmap, head_rows_length by done.
  by rewrite (sort_by_Permutation sort_by Hsort).
Qed.

Lemma top_countries_are_top_witness :
  wv_top_table stable_sort_by (λ c, c) world_summary 2020 false 2
  = Some top_countries_2020
  ∧ (λ r : Row, r !! "country") <$> top_countries_2020
    = [Some (CStr "United States"); Some (CStr "Japan")]
  ∧ ∃ df shown rest,
      wv_df_map (λ c, c) world_summary 2020 false = Some df
      ∧ shown ++ rest ≡ₚ df
      ∧ ∀ a b, a ∈ shown → b ∈ rest → not_above "total_streams" a b.
Proof.
  assert (wv_top_table stable_sort_by (λ c, c) world_summary 2020 false 2
          = Some top_countries_2020) as Ht by compute_done.
  destruct (top_countries_are_top _ _ _ _ _ _ _ sort_values_SortValues Ht)
    as (df & shown & rest & Hdf & Hperm & _ & _ & _ & Htop).
  split_and!; [exact Ht|compute_done|].
  exists df, shown, rest. exact (conj Hdf (conj Hperm Htop)).
Defined.



(** ** Trends *)




Section TopIndexFacts.
Context (key : string) (Hkey : key ≠ "streams_sum"%string).
Implicit Types (df : list Row) (g : Row) (k : Cell).

Local Abbreviation totals df :=
  (agg [key] [("streams_sum"%string, agg_sum "streams_sum")] df).

Local Abbreviation total df k :=
  (sum_Z (numbers "streams_sum" (filter (λ r : Row, r !! key = Some k) df))).




End TopIndexFacts.



Section TrendsFacts.
Context (sort_by : string → bool → list Row → list Row).


End TrendsFacts.


